(** * Cache and Update Manager of the explorer (src/cache.js)

    A shallow embedding of the caching and background-refresh core:
    the two LRU tiers, the single-flight Update Manager and the SQLite
    statistics store, followed by the properties of the specification
    that were checked against it.

    Conventions.
    - JavaScript numbers that the code treats as integers (heights,
      timestamps, sizes, satoshi amounts, millisecond clocks) are [Z];
      numbers that are fractional upstream (difficulty, supply) and the
      SQLite [REAL] average are exact rationals [Q].  Rounding of IEEE
      doubles is outside the model.
    - A field the code reads through [x || 0] is an [option]: [None] is
      a missing (undefined / null) field.
    - Upstream calls are inputs: every [await fetchFromElectrs(..)] is a
      [result] handed to the continuation that resumes after it. *)

From Stdlib Require Import ZArith QArith Qround Lia List Bool.
From stdpp Require Import gmap strings list fin_maps pretty sorting.

Local Open Scope Z_scope.

(** ** JavaScript helpers *)

(** [x || 0] on a possibly missing integer. *)
Definition or0 (x : option Z) : Z :=
  match x with Some v => v | None => 0 end.

(** [x || 0] on a possibly missing fractional number. *)
Definition or0Q (x : option Q) : Q :=
  match x with Some v => v | None => 0%Q end.

(** Truthiness of a JavaScript integer: every number but zero. *)
Definition truthy (x : Z) : bool := negb (x =? 0).

(** Truthiness of a value that may be [undefined]. *)
Definition truthyOpt (x : option Z) : bool :=
  match x with Some v => truthy v | None => false end.

(** [Math.round(a / b)] for integers [a] and [b > 0]: the nearest
    integer, halves rounded towards plus infinity. *)
Definition Math_round_div (a b : Z) : Z := (2 * a + b) / (2 * b).

(** The result of a JavaScript division: a finite quotient, or one of
    [Infinity], [-Infinity], [NaN] when the divisor is zero. *)
Inductive JsNum :=
| Finite (q : Q)
| NonFinite.

Definition js_div (a b : Q) : JsNum :=
  if Qeq_bool b 0 then NonFinite else Finite (a / b)%Q.

(** The outcome of an awaited upstream call. *)
Inductive result (A : Type) :=
| Ok (a : A)
| Err (message : string).
Arguments Ok {A} a.
Arguments Err {A} message.

(** [promise.catch(() => dflt)] *)
Definition catch_default {A} (r : result A) (dflt : A) : A :=
  match r with Ok a => a | Err _ => dflt end.

(** ** Calendar dates

    [new Date(ts * 1000).toISOString().split('T')[0]] is the UTC
    calendar date of the instant [ts] (seconds since the epoch), printed
    as YYYY-MM-DD.  The date is kept as its three numbers; the order
    SQLite puts on two such zero-padded texts is the lexicographic order
    of (year, month, day), for the years 0000 to 9999. *)
Module IsoDate.

Record t := mk { year : Z; month : Z; day : Z }.

Definition eqb (a b : t) : bool :=
  (year a =? year b) && (month a =? month b) && (day a =? day b).

Definition ltb (a b : t) : bool :=
  (year a <? year b)
  || ((year a =? year b)
      && ((month a <? month b)
          || ((month a =? month b) && (day a <? day b)))).

(** Day of a 400-year era (starting on 1 March) to the civil date,
    with the year counted inside the era. *)
Definition of_doe (doe : Z) : t :=
  let yoe := (doe - doe / 1460 + doe / 36524 - doe / 146096) / 365 in
  let doy := doe - (365 * yoe + yoe / 4 - yoe / 100) in
  let mp := (5 * doy + 2) / 153 in
  let d := doy - (153 * mp + 2) / 5 + 1 in
  let m := if mp <? 10 then mp + 3 else mp - 9 in
  mk (if m <=? 2 then yoe + 1 else yoe) m d.

(** Days since 1970-01-01 to the proleptic Gregorian date. *)
Definition of_days (days : Z) : t :=
  let z := days + 719468 in
  let era := z / 146097 in
  let c := of_doe (z mod 146097) in
  mk (year c + era * 400) (month c) (day c).

(** Seconds since the epoch to the UTC date. *)
Definition of_timestamp (ts : Z) : t := of_days (ts / 86400).

End IsoDate.

(** ** Upstream payloads *)

Module Block.
Record t := mk {
  id : string;
  height : Z;
  timestamp : Z;
  tx_count : option Z;
  size : option Z;
  difficulty : option Q
}.
End Block.

Module Vin.
Record t := mk { is_coinbase : bool }.
End Vin.

Module Vout.
Record t := mk { value : option Z }.
End Vout.

Module Tx.
Record t := mk { txid : string; vin : list Vin.t; vout : list Vout.t }.
End Tx.

(** The answer of [/blockchain/getsupply]. *)
Module Supply.
Record t := mk { total_amount_float : option Q }.
End Supply.

(** ** The dashboard snapshot *)

Module Dashboard.
Record t := mk {
  tipHeight : Z;
  hashrate : JsNum;
  avgBlockTime : Z;
  mempoolCount : Z;
  difficulty : Q;
  supply : Q;
  blockReward : Z;
  blocks : list Block.t;
  updatedAt : Z
}.
End Dashboard.

(** ** Configuration *)

Definition UPDATE_INTERVAL : Z := 10 * 1000.
Definition LIVE_TTL : Z := 60 * 1000.
Definition FRESH_THRESHOLD : Z := 30000.
Definition DEFAULT_BLOCK_TIME : Z := 120.
Definition RETENTION_SECONDS : Z := 90 * 24 * 60 * 60.

Module LIVE_KEYS.
Definition DASHBOARD : string := "live:dashboard".
Definition BLOCKS : string := "live:blocks".
Definition TIP_HEIGHT : string := "live:tipHeight".
Definition MEMPOOL : string := "live:mempool".
Definition BLOCK_REWARD : string := "live:blockReward".
End LIVE_KEYS.

(** ** The live cache

    An [LRUCache] with [max: 100] and [ttl: 60 * 1000].  An entry holds
    its value and the time it was set; [get] answers [undefined] once
    the entry is older than the ttl.  An expired entry stays in the map
    and is never answered again (the library drops it at some later
    access, which no reader can tell apart).  Only the five live keys
    are ever set, so the capacity bound never evicts. *)

Inductive LiveValue :=
| VDashboard (d : Dashboard.t)
| VBlocks (bs : list Block.t)
| VTipHeight (h : Z)
| VMempool (m : list string)
| VReward (r : Z).

Record Entry := mkEntry { entry_value : LiveValue; entry_start : Z }.

Definition isStale (now : Z) (e : Entry) : bool :=
  now - entry_start e >? LIVE_TTL.

Definition getLive (now : Z) (key : string) (c : gmap string Entry)
  : option LiveValue :=
  match c !! key with
  | Some e => if isStale now e then None else Some (entry_value e)
  | None => None
  end.

Definition setLive (now : Z) (key : string) (v : LiveValue)
    (c : gmap string Entry) : gmap string Entry :=
  <[key := mkEntry v now]> c.

(** [getLive(LIVE_KEYS.BLOCK_REWARD)] as the number it holds. *)
Definition getBlockReward (now : Z) (c : gmap string Entry) : option Z :=
  match getLive now LIVE_KEYS.BLOCK_REWARD c with
  | Some (VReward r) => Some r
  | _ => None
  end.

Definition getDashboard (now : Z) (c : gmap string Entry)
  : option Dashboard.t :=
  match getLive now LIVE_KEYS.DASHBOARD c with
  | Some (VDashboard d) => Some d
  | _ => None
  end.

(** ** The statistics store *)

Module HistRow.
Record t := mk {
  height : Z;
  hash : string;
  timestamp : Z;
  tx_count : Z;
  size : Z;
  block_reward : Z;
  date : IsoDate.t
}.
End HistRow.

Module DailyRow.
Record t := mk {
  date : IsoDate.t;
  tx_count : Z;
  block_count : Z;
  total_size : Z;
  avg_block_size : Q;
  updated_at : Z
}.
End DailyRow.

Record Store := mkStore {
  blocks_history : list HistRow.t;
  daily_stats : list DailyRow.t
}.

(** *** blocks_history: [INSERT OR IGNORE] on the primary key [height] *)

Definition has_height (h : Z) (tbl : list HistRow.t) : bool :=
  existsb (fun r => HistRow.height r =? h) tbl.

Definition insert_or_ignore (r : HistRow.t) (tbl : list HistRow.t)
  : list HistRow.t :=
  if has_height (HistRow.height r) tbl then tbl else tbl ++ [r].

(** The row [insert.run(block.height, block.id, block.timestamp,
    block.tx_count || 0, block.size || 0, date)] binds; the column
    block_reward is not listed and takes its default. *)
Definition history_row (b : Block.t) : HistRow.t :=
  HistRow.mk (Block.height b) (Block.id b) (Block.timestamp b)
    (or0 (Block.tx_count b)) (or0 (Block.size b)) 0
    (IsoDate.of_timestamp (Block.timestamp b)).

Definition insertMany (blocks : list Block.t) (tbl : list HistRow.t)
  : list HistRow.t :=
  fold_left (fun t b => insert_or_ignore (history_row b) t) blocks tbl.

(** *** The aggregate query of [updateDailyStats] *)

Definition rows_of_date (date : IsoDate.t) (tbl : list HistRow.t)
  : list HistRow.t :=
  List.filter (fun r => IsoDate.eqb (HistRow.date r) date) tbl.

Definition COUNT {A} (rows : list A) : Z := Z.of_nat (length rows).

Definition total (xs : list Z) : Z := fold_right Z.add 0 xs.

(** [SUM] and [AVG] are NULL over no rows. *)
Definition SUM (xs : list Z) : option Z :=
  match xs with [] => None | _ => Some (total xs) end.

Definition AVG (xs : list Z) : option Q :=
  match xs with
  | [] => None
  | _ => Some (Qred (inject_Z (total xs) / inject_Z (COUNT xs)))
  end.

(** *** daily_stats: [INSERT OR REPLACE] on the primary key [date] *)

Definition insert_or_replace (d : DailyRow.t) (tbl : list DailyRow.t)
  : list DailyRow.t :=
  List.filter
    (fun x => negb (IsoDate.eqb (DailyRow.date x) (DailyRow.date d))) tbl
  ++ [d].

Definition daily_of_date (date : IsoDate.t) (tbl : list DailyRow.t)
  : list DailyRow.t :=
  List.filter (fun x => IsoDate.eqb (DailyRow.date x) date) tbl.

Definition updateDailyStats (now : Z) (date : IsoDate.t) (s : Store)
  : Store :=
  let rows := rows_of_date date (blocks_history s) in
  let block_count := COUNT rows in
  if 0 <? block_count then
    mkStore (blocks_history s)
      (insert_or_replace
         (DailyRow.mk date
            (or0 (SUM (map HistRow.tx_count rows)))
            block_count
            (or0 (SUM (map HistRow.size rows)))
            (or0Q (AVG (map HistRow.size rows)))
            (now / 1000))
         (daily_stats s))
  else s.

(** [saveBlocksToStats(blocks)] at wall-clock time [now] (milliseconds);
    [db] is [None] while the database is not open. *)
Definition saveBlocksToStats (now : Z) (blocks : list Block.t)
    (db : option Store) : option Store :=
  match db with
  | None => None
  | Some s =>
      match blocks with
      | [] => Some s
      | _ =>
          let s1 := mkStore (insertMany blocks (blocks_history s))
                            (daily_stats s) in
          let today := IsoDate.of_timestamp (now / 1000) in
          Some (updateDailyStats now today s1)
      end
  end.

(** *** [initDatabase]: open the file and sweep what is older than
    ninety days.  [disk] is what the two tables of the database file
    hold when the file can be opened (nothing for a fresh file), [None]
    when creating the directory or opening the file throws.  The sweep
    is two [DELETE] statements, run one after the other. *)

Definition ninetyDaysAgo (now : Z) : Z := now / 1000 - RETENTION_SECONDS.

(** [DELETE FROM blocks_history WHERE timestamp < ?] *)
Definition sweep_history (now : Z) (s : Store) : Store :=
  let cutoff := ninetyDaysAgo now in
  mkStore
    (List.filter (fun r => negb (HistRow.timestamp r <? cutoff))
       (blocks_history s))
    (daily_stats s).

(** [DELETE FROM daily_stats WHERE date < ?] *)
Definition sweep_daily (now : Z) (s : Store) : Store :=
  let ninetyDaysAgoDate := IsoDate.of_timestamp (ninetyDaysAgo now) in
  mkStore
    (blocks_history s)
    (List.filter
       (fun d => negb (IsoDate.ltb (DailyRow.date d) ninetyDaysAgoDate))
       (daily_stats s)).

Definition sweep (now : Z) (s : Store) : Store :=
  sweep_daily now (sweep_history now s).

(** The statements of [initDatabase] that run once [db] is assigned
    (line 61); each of them can throw. *)
Inductive InitStep :=
| Pragma          (** [db.pragma('journal_mode = WAL')] *)
| CreateTables    (** [db.exec(`CREATE TABLE IF NOT EXISTS ...`)] *)
| DeleteHistory   (** [DELETE FROM blocks_history WHERE timestamp < ?] *)
| DeleteDaily.    (** [DELETE FROM daily_stats WHERE date < ?] *)

(** ** The Update Manager *)

Record State := mkState {
  updateManagerRunning : bool;
  lastUpdateTime : Z;
  liveCache : gmap string Entry;
  immutableCache : gmap string Tx.t;
  db : option Store
}.

(** [throws] is the statement that throws, if one does.  The [catch]
    returns [false] and resets nothing: when the file was opened, [db]
    stays assigned, with the rows the statements run so far have left. *)
Definition initDatabase (now : Z) (disk : option Store)
    (throws : option InitStep) (st : State) : bool * State :=
  match disk with
  | None => (false, st)
  | Some s =>
      let opened s' :=
        mkState (updateManagerRunning st) (lastUpdateTime st) (liveCache st)
          (immutableCache st) (Some s') in
      match throws with
      | Some Pragma | Some CreateTables | Some DeleteHistory =>
          (false, opened s)
      | Some DeleteDaily => (false, opened (sweep_history now s))
      | None => (true, opened (sweep now s))
      end
  end.

Definition setImmutable (key : string) (v : Tx.t) (st : State) : State :=
  mkState (updateManagerRunning st) (lastUpdateTime st) (liveCache st)
    (<[key := v]> (immutableCache st)) (db st).

(** [Date.now() - lastUpdateTime < 30000] *)
Definition isCacheFresh (now : Z) (st : State) : bool :=
  now - lastUpdateTime st <? FRESH_THRESHOLD.

(** The four answers [Promise.all] waits for. *)
Record Fanout := mkFanout {
  f_blocks : result (list Block.t);
  f_tipHeight : result Z;
  f_mempool : result (list string);
  f_supply : result Supply.t
}.

(** What a cycle holds in its local variables across the reward fetch. *)
Record Locals := mkLocals {
  l_blocks : list Block.t;
  l_tipHeight : Z;
  l_mempool : list string;
  l_supplyData : Supply.t;
  l_avgBlockTime : Z;
  l_latestDifficulty : Q;
  l_hashrate : JsNum
}.

Definition avgBlockTime (blocks : list Block.t) : Z :=
  if 1 <? Z.of_nat (length blocks) then
    match blocks !! 0%nat, blocks !! (length blocks - 1)%nat with
    | Some newest, Some oldest =>
        Math_round_div (Block.timestamp newest - Block.timestamp oldest)
                       (Z.of_nat (length blocks) - 1)
    | _, _ => DEFAULT_BLOCK_TIME
    end
  else DEFAULT_BLOCK_TIME.

(** [blocks[0]?.difficulty || 0] *)
Definition latestDifficulty (blocks : list Block.t) : Q :=
  match blocks !! 0%nat with
  | Some b => or0Q (Block.difficulty b)
  | None => 0%Q
  end.

Definition hashrate_of (difficulty : Q) (avg : Z) : JsNum :=
  js_div (difficulty * inject_Z (2 ^ 32)) (inject_Z avg).

Definition derive (blocks : list Block.t) (tip : Z) (mempool : list string)
    (supplyData : Supply.t) : Locals :=
  let avg := avgBlockTime blocks in
  let diff := latestDifficulty blocks in
  mkLocals blocks tip mempool supplyData avg diff (hashrate_of diff avg).

(** [txs[0].vout.reduce((sum, vout) => sum + (vout.value || 0), 0)] *)
Definition sum_vout (vout : list Vout.t) : Z :=
  fold_left (fun sum v => sum + or0 (Vout.value v)) vout 0.

(** The coinbase transaction of the answer, when
    [txs && txs[0] && txs[0].vin[0]?.is_coinbase] holds. *)
Definition coinbase_of (txs : list Tx.t) : option Tx.t :=
  match txs !! 0%nat with
  | Some tx =>
      match Tx.vin tx !! 0%nat with
      | Some i => if Vin.is_coinbase i then Some tx else None
      | None => None
      end
  | None => None
  end.

Inductive Outcome :=
| Dropped
| Aborted
| Published (d : Dashboard.t).

(** The [finally] block. *)
Definition release (st : State) : State :=
  mkState false (lastUpdateTime st) (liveCache st) (immutableCache st)
    (db st).

(** Lines 175 to 199: assemble the snapshot, write the live keys, stamp
    [lastUpdateTime], hand the blocks to the statistics store; then the
    [finally] block. *)
Definition snapshot (now : Z) (l : Locals) (blockReward : option Z)
  : Dashboard.t :=
  Dashboard.mk (l_tipHeight l) (l_hashrate l) (l_avgBlockTime l)
    (Z.of_nat (length (l_mempool l))) (l_latestDifficulty l)
    (or0Q (Supply.total_amount_float (l_supplyData l)))
    (or0 blockReward) (take 15 (l_blocks l)) now.

Definition publish (now : Z) (l : Locals) (blockReward : option Z)
    (st : State) : State * Outcome :=
  let d := snapshot now l blockReward in
  let c := setLive now LIVE_KEYS.DASHBOARD (VDashboard d) (liveCache st) in
  let c := setLive now LIVE_KEYS.BLOCKS (VBlocks (l_blocks l)) c in
  let c := setLive now LIVE_KEYS.TIP_HEIGHT (VTipHeight (l_tipHeight l)) c in
  let c := setLive now LIVE_KEYS.MEMPOOL (VMempool (l_mempool l)) c in
  let c := if truthyOpt blockReward
           then setLive now LIVE_KEYS.BLOCK_REWARD
                  (VReward (or0 blockReward)) c
           else c in
  (release (mkState (updateManagerRunning st) now c (immutableCache st)
              (saveBlocksToStats now (l_blocks l) (db st))),
   Published d).

(** Line 138: the guard, and the flag taken. *)
Definition enter (st : State) : option State :=
  if updateManagerRunning st then None
  else Some (mkState true (lastUpdateTime st) (liveCache st)
               (immutableCache st) (db st)).

Definition reward_endpoint (b : Block.t) : string :=
  "/block/" +:+ Block.id b +:+ "/txs/0".

(** How a continuation ends: the cycle is over, or it awaits the first
    transaction of the newest block with its local variables kept. *)
Inductive Next :=
| Done (o : Outcome)
| Wait (endpoint : string) (l : Locals).

(** The continuation of [await Promise.all(..)], run at time [now]. *)
Definition after_fanout (now : Z) (f : Fanout) (st : State)
  : State * Next :=
  match f_blocks f, f_tipHeight f with
  | Ok blocks, Ok tipHeight =>
      let mempool := catch_default (f_mempool f) [] in
      let supplyData :=
        catch_default (f_supply f) (Supply.mk (Some 0%Q)) in
      let l := derive blocks tipHeight mempool supplyData in
      let blockReward := getBlockReward now (liveCache st) in
      match blocks !! 0%nat with
      | Some b0 =>
          if truthyOpt blockReward
          then let (st', o) := publish now l blockReward st in (st', Done o)
          else (st, Wait (reward_endpoint b0) l)
      | None => let (st', o) := publish now l blockReward st in (st', Done o)
      end
  | _, _ => (release st, Done Aborted)
  end.

(** The continuation of [await fetchFromElectrs(`/block/${id}/txs/0`)],
    run at time [now]; the cached reward was falsy when the fetch was
    issued. *)
Definition after_reward (now : Z) (r : result (list Tx.t)) (l : Locals)
    (st : State) : State * Outcome :=
  match r with
  | Ok txs =>
      match coinbase_of txs with
      | Some tx =>
          publish now l (Some (sum_vout (Tx.vout tx)))
            (setImmutable ("tx:" +:+ Tx.txid tx) tx st)
      | None => publish now l None st
      end
  | Err _ => publish now l None st
  end.

(** *** One cycle, start to end

    [updateManager()] called at a moment when the answers of its awaits
    are [c_fanout] (continuation resumed at [c_fanoutTime]) and, if the
    coinbase is asked for, [c_reward] (resumed at [c_rewardTime]).  The
    result records the final state, the outcome, and the endpoint of the
    reward fetch when one was issued. *)

Record CycleInput := mkCycleInput {
  c_fanout : Fanout;
  c_fanoutTime : Z;
  c_reward : result (list Tx.t);
  c_rewardTime : Z
}.

Record CycleResult := mkCycleResult {
  final : State;
  outcome : Outcome;
  rewardRequest : option string
}.

Definition updateManager (inp : CycleInput) (st : State) : CycleResult :=
  match enter st with
  | None => mkCycleResult st Dropped None
  | Some st1 =>
      match after_fanout (c_fanoutTime inp) (c_fanout inp) st1 with
      | (st2, Done o) => mkCycleResult st2 o None
      | (st2, Wait endpoint l) =>
          let (st3, o) :=
            after_reward (c_rewardTime inp) (c_reward inp) l st2 in
          mkCycleResult st3 o (Some endpoint)
      end
  end.

(** *** The event loop

    Calls of [updateManager] (from the timer or from a request handler
    that forces a refresh) and the settling of awaited promises
    interleave.  The machine keeps the shared state, the activations of
    the cycle body that are suspended at an await, and the number of
    times the cycle body was entered. *)

(** Where an activation of the cycle body is suspended. *)
Inductive Pending :=
| AwaitFanout
| AwaitReward (endpoint : string) (l : Locals).

Record Machine := mkMachine {
  shared : State;
  inflight : list Pending;
  started : nat
}.

Inductive Event :=
| Call
| FanoutSettled (i : nat) (now : Z) (f : Fanout)
| RewardSettled (i : nat) (now : Z) (r : result (list Tx.t)).

(** What remains of the activation list once activation [i] moved on. *)
Definition resume (i : nat) (next : Next) (l : list Pending)
  : list Pending :=
  match next with
  | Done _ => delete i l
  | Wait endpoint locals => <[i := AwaitReward endpoint locals]> l
  end.

Definition step (m : Machine) (e : Event) : option Machine :=
  match e with
  | Call =>
      match enter (shared m) with
      | None => Some m
      | Some st => Some (mkMachine st (inflight m ++ [AwaitFanout])
                           (S (started m)))
      end
  | FanoutSettled i now f =>
      match inflight m !! i with
      | Some AwaitFanout =>
          let (st, next) := after_fanout now f (shared m) in
          Some (mkMachine st (resume i next (inflight m)) (started m))
      | _ => None
      end
  | RewardSettled i now r =>
      match inflight m !! i with
      | Some (AwaitReward _ l) =>
          let (st, o) := after_reward now r l (shared m) in
          Some (mkMachine st (resume i (Done o) (inflight m)) (started m))
      | _ => None
      end
  end.

Fixpoint run (m : Machine) (es : list Event) : option Machine :=
  match es with
  | [] => Some m
  | e :: es' =>
      match step m e with
      | Some m' => run m' es'
      | None => None
      end
  end.

(** The process starts with the flag down and nothing suspended. *)
Definition boot (st : State) : Machine :=
  mkMachine (release st) [] 0.

Inductive reachable : Machine -> Prop :=
| reach_boot st : reachable (boot st)
| reach_step m e m' : reachable m -> step m e = Some m' -> reachable m'.

(** The configuration the module is loaded with. *)
Definition initial : State :=
  mkState false 0 ∅ ∅ None.

(** The invariant of the single-flight guard. *)
Definition single_flight_inv (m : Machine) : Prop :=
  (length (inflight m) <= 1)%nat /\
  (updateManagerRunning (shared m) = true <-> inflight m <> []).

(** ** Sample data

    Two blocks mined 120 seconds apart on 2024-01-01 (UTC), newest
    first as [/blocks] lists them, and the coinbase of the newest. *)
Module Sample.

Definition newest : Block.t :=
  Block.mk "00a1" 101 1704067320 (Some 3) (Some 2000) (Some 1000%Q).

Definition oldest : Block.t :=
  Block.mk "00a0" 100 1704067200 (Some 5) (Some 1000) (Some 1000%Q).

Definition blocks : list Block.t := [newest; oldest].

Definition coinbase : Tx.t :=
  Tx.mk "cb01" [Vin.mk true] [Vout.mk (Some 5000000000)].

(** Every fetch answers. *)
Definition fanout_ok : Fanout :=
  mkFanout (Ok blocks) (Ok 101) (Ok ["m1"; "m2"])
    (Ok (Supply.mk (Some 21000000%Q))).

(** Mempool and supply are rejected, blocks and tip height answer. *)
Definition fanout_degraded : Fanout :=
  mkFanout (Ok blocks) (Ok 101) (Err "timeout") (Err "timeout").

(** The blocks fetch is rejected. *)
Definition fanout_no_blocks : Fanout :=
  mkFanout (Err "ECONNREFUSED") (Ok 101) (Ok []) (Ok (Supply.mk None)).

(** [/blocks] answers with an empty list. *)
Definition fanout_empty : Fanout :=
  mkFanout (Ok []) (Ok 0) (Ok []) (Ok (Supply.mk None)).

(** 2024-01-01T00:02:10Z in milliseconds. *)
Definition t0 : Z := 1704067330000.

(** A cycle in which every fetch answers and the coinbase is found. *)
Definition cycle_ok (t : Z) : CycleInput :=
  mkCycleInput fanout_ok t (Ok [coinbase]) (t + 40).

(** A cycle in which the fan-out answers and the reward fetch is
    rejected. *)
Definition cycle_reward_fails (t : Z) : CycleInput :=
  mkCycleInput fanout_ok t (Err "timeout") (t + 40).

Definition cycle_degraded (t : Z) : CycleInput :=
  mkCycleInput fanout_degraded t (Err "timeout") (t + 40).

Definition cycle_no_blocks (t : Z) : CycleInput :=
  mkCycleInput fanout_no_blocks t (Err "timeout") (t + 40).

Definition cycle_empty (t : Z) : CycleInput :=
  mkCycleInput fanout_empty t (Err "timeout") (t + 40).

End Sample.

(** Cycles run one after the other, each to its end. *)
Definition run_cycles (inps : list CycleInput) (st : State) : State :=
  fold_left (fun s inp => final (updateManager inp s)) inps st.

(** The reward fetch brought no coinbase: it was rejected, or its answer
    fails the test [txs && txs[0] && txs[0].vin[0]?.is_coinbase]. *)
Definition reward_fetch_failed (r : result (list Tx.t)) : Prop :=
  match r with
  | Ok txs => coinbase_of txs = None
  | Err _ => True
  end.

(** The timer of the sample run: a good cycle at [Sample.t0], then the
    upstream is down for a minute and six cycles abort. *)
Definition outage : list CycleInput :=
  [Sample.cycle_ok Sample.t0;
   Sample.cycle_no_blocks (Sample.t0 + 10000);
   Sample.cycle_no_blocks (Sample.t0 + 20000);
   Sample.cycle_no_blocks (Sample.t0 + 30000);
   Sample.cycle_no_blocks (Sample.t0 + 40000);
   Sample.cycle_no_blocks (Sample.t0 + 50000);
   Sample.cycle_no_blocks (Sample.t0 + 60000)].

(** Three blocks whose newest and oldest are 7 seconds apart, and a
    cycle that fetches them. *)
Definition uneven_blocks : list Block.t :=
  [Block.mk "00b2" 202 1704067207 (Some 1) (Some 300) (Some 1000%Q);
   Block.mk "00b1" 201 1704067203 (Some 1) (Some 300) (Some 1000%Q);
   Block.mk "00b0" 200 1704067200 (Some 1) (Some 300) (Some 1000%Q)].

Definition cycle_uneven : CycleInput :=
  mkCycleInput
    (mkFanout (Ok uneven_blocks) (Ok 202) (Ok []) (Ok (Supply.mk None)))
    Sample.t0 (Ok [Sample.coinbase]) (Sample.t0 + 40).

(** A block mined at 2024-01-01T23:59:55Z, seen by the cycle that runs
    at 2024-01-02T00:00:05Z. *)
Definition late_block : Block.t :=
  Block.mk "00a2" 102 1704153595 (Some 4) (Some 3000) (Some 1000%Q).

Definition next_day : Z := 1704153605000.

Definition empty_store : Store := mkStore [] [].

(** The dates of [n] consecutive days of an era, from day [doe] on, each
    compared with the date of the next day. *)
Fixpoint increasing_from (n : nat) (doe : Z) : bool :=
  match n with
  | O => true
  | S k =>
      IsoDate.ltb (IsoDate.of_doe doe) (IsoDate.of_doe (doe + 1))
      && increasing_from k (doe + 1)
  end.

(** A date of era 0 moved to era [era]. *)
Definition in_era (era : Z) (c : IsoDate.t) : IsoDate.t :=
  IsoDate.mk (IsoDate.year c + era * 400) (IsoDate.month c) (IsoDate.day c).

(** A database file holding a history row and a daily record from 91
    days before [Sample.t0] and from 89 days before it. *)
Definition aged_row (days : Z) : HistRow.t :=
  let ts := Sample.t0 / 1000 - days * 86400 in
  HistRow.mk (1000 - days) "00c0" ts 1 500 0 (IsoDate.of_timestamp ts).

Definition aged_daily (days : Z) : DailyRow.t :=
  let ts := Sample.t0 / 1000 - days * 86400 in
  DailyRow.mk (IsoDate.of_timestamp ts) 1 1 500 500 ts.

Definition aged_store : Store :=
  mkStore [aged_row 91; aged_row 89] [aged_daily 91; aged_daily 89].

(** The events of one cycle run alone on the event loop: the call, the
    settling of the fan-out and, when the coinbase was asked for, the
    settling of that fetch. *)
Definition events_of (inp : CycleInput) (st : State) : list Event :=
  Call
  :: FanoutSettled 0 (c_fanoutTime inp) (c_fanout inp)
  :: match rewardRequest (updateManager inp st) with
     | Some _ => [RewardSettled 0 (c_rewardTime inp) (c_reward inp)]
     | None => []
     end.

(** The keys the Update Manager writes. *)
Definition live_key_set : gset string :=
  {[ LIVE_KEYS.DASHBOARD; LIVE_KEYS.BLOCKS; LIVE_KEYS.TIP_HEIGHT;
     LIVE_KEYS.MEMPOOL; LIVE_KEYS.BLOCK_REWARD ]}.

(** Nothing was put under the reward key between the caches [c] and
    [c']: an entry found there in [c'] is the one [c] held. *)
Definition reward_not_written (c c' : gmap string Entry) : Prop :=
  forall e, c' !! LIVE_KEYS.BLOCK_REWARD = Some e ->
            c !! LIVE_KEYS.BLOCK_REWARD = Some e.

(** ** Reading the statistics (src/cache.js, lines 287 to 312) *)

(** [ORDER BY date DESC]: a row put into a list kept latest first. *)
Fixpoint insert_desc (d : DailyRow.t) (l : list DailyRow.t)
  : list DailyRow.t :=
  match l with
  | [] => [d]
  | x :: tl =>
      if IsoDate.ltb (DailyRow.date x) (DailyRow.date d)
      then d :: l
      else x :: insert_desc d tl
  end.

Definition order_by_date_desc (tbl : list DailyRow.t) : list DailyRow.t :=
  fold_right insert_desc [] tbl.

(** [LIMIT n]: the first [n] rows; SQLite sets no bound when [n] is
    negative. *)
Definition LIMIT {A} (n : Z) (rows : list A) : list A :=
  if n <? 0 then rows else take (Z.to_nat n) rows.

(** [getDailyStats(days)]: [SELECT * FROM daily_stats ORDER BY date
    DESC LIMIT ?], reversed; the empty list while the database is not
    open. *)
Definition getDailyStats (days : Z) (db : option Store) : list DailyRow.t :=
  match db with
  | None => []
  | Some s => rev (LIMIT days (order_by_date_desc (daily_stats s)))
  end.

Module TxCountPoint.
Record t := mk { date : IsoDate.t; count : Z }.
End TxCountPoint.

Module BlockSizePoint.
Record t := mk { date : IsoDate.t; avgSize : Z }.
End BlockSizePoint.

(** [Math.round(x)]: the nearest integer, halves towards plus
    infinity. *)
Definition Math_round (x : Q) : Z := Qfloor (x + (1 # 2)).

(** [{ date: s.date, count: s.tx_count || 0 }] *)
Definition getDailyTxCounts (days : Z) (db : option Store)
  : list TxCountPoint.t :=
  map (fun s => TxCountPoint.mk (DailyRow.date s)
                  (or0 (Some (DailyRow.tx_count s))))
      (getDailyStats days db).

(** [{ date: s.date, avgSize: Math.round(s.avg_block_size || 0) }] *)
Definition getDailyBlockSizes (days : Z) (db : option Store)
  : list BlockSizePoint.t :=
  map (fun s => BlockSizePoint.mk (DailyRow.date s)
                  (Math_round (or0Q (Some (DailyRow.avg_block_size s)))))
      (getDailyStats days db).

(** The [days] the statistics routes of src/server.js pass on:
    [Math.min(parseInt(req.query.days) || 7, 90)], where [parsed] is the
    value of [parseInt], [None] standing for NaN. *)
Definition daysParam (parsed : option Z) : Z :=
  Z.min (if truthyOpt parsed then or0 parsed else 7) 90.

(** A row is dated no earlier than another. *)
Definition not_before (a b : DailyRow.t) : Prop :=
  IsoDate.ltb (DailyRow.date a) (DailyRow.date b) = false.

(** A row is dated earlier than another. *)
Definition dated_before (a b : DailyRow.t) : Prop :=
  IsoDate.ltb (DailyRow.date a) (DailyRow.date b) = true.

(** Three daily records, stored out of order. *)
Definition three_days : Store :=
  mkStore []
    [DailyRow.mk (IsoDate.mk 2024 1 2) 20 2 200 100 0;
     DailyRow.mk (IsoDate.mk 2024 1 1) 10 1 100 100 0;
     DailyRow.mk (IsoDate.mk 2024 1 3) 30 3 301 (301 # 3) 0].

(** ** The timer (src/cache.js, lines 208 to 229)

    The process keeps the event loop of the Update Manager, the handle
    [updateInterval] the module remembers, and the intervals the runtime
    fires; [nextHandle] is the handle the next [setInterval] returns. *)

Record Process := mkProcess {
  machine : Machine;
  updateInterval : option nat;
  intervals : list nat;
  nextHandle : nat
}.

(** A call of [updateManager()] whose promise nobody awaits. *)
Definition callUpdateManager (m : Machine) : Machine :=
  match step m Call with Some m' => m' | None => m end.

Definition startUpdateManager (p : Process) : Process :=
  match updateInterval p with
  | Some _ => p
  | None =>
      let h := nextHandle p in
      mkProcess (callUpdateManager (machine p)) (Some h)
        (h :: intervals p) (S h)
  end.

Definition stopUpdateManager (p : Process) : Process :=
  match updateInterval p with
  | Some h =>
      mkProcess (machine p) None
        (List.filter (fun x => negb (Nat.eqb x h)) (intervals p))
        (nextHandle p)
  | None => p
  end.

Inductive ProcessEvent :=
| Start
| Stop
| Tick (h : nat)
| Loop (e : Event).

(** An interval fires only while the runtime holds it; the events of
    the Update Manager go on whatever the timer does. *)
Definition pstep (p : Process) (e : ProcessEvent) : option Process :=
  match e with
  | Start => Some (startUpdateManager p)
  | Stop => Some (stopUpdateManager p)
  | Tick h =>
      if existsb (Nat.eqb h) (intervals p)
      then Some (mkProcess (callUpdateManager (machine p))
                   (updateInterval p) (intervals p) (nextHandle p))
      else None
  | Loop e =>
      match step (machine p) e with
      | Some m => Some (mkProcess m (updateInterval p) (intervals p)
                          (nextHandle p))
      | None => None
      end
  end.

Fixpoint prun (p : Process) (es : list ProcessEvent) : option Process :=
  match es with
  | [] => Some p
  | e :: es' =>
      match pstep p e with
      | Some p' => prun p' es'
      | None => None
      end
  end.

(** The module as it is loaded: no timer. *)
Definition launch : Process := mkProcess (boot initial) None [] 0.

(** The runtime fires the interval the module remembers and no other. *)
Definition timer_inv (p : Process) : Prop :=
  intervals p = match updateInterval p with Some h => [h] | None => [] end.

(** ** The getters of the live cache (src/cache.js, lines 316 to 344) *)

Definition getBlocks (now : Z) (c : gmap string Entry)
  : option (list Block.t) :=
  match getLive now LIVE_KEYS.BLOCKS c with
  | Some (VBlocks bs) => Some bs
  | _ => None
  end.

Definition getTipHeight (now : Z) (c : gmap string Entry) : option Z :=
  match getLive now LIVE_KEYS.TIP_HEIGHT c with
  | Some (VTipHeight h) => Some h
  | _ => None
  end.

Definition getMempool (now : Z) (c : gmap string Entry)
  : option (list string) :=
  match getLive now LIVE_KEYS.MEMPOOL c with
  | Some (VMempool m) => Some m
  | _ => None
  end.

(** The dashboard, blocks, tip-height and mempool keys were written
    together by the last publication, at [lastUpdateTime], or were never
    written.  A continuation runs without a break, so the clock readings
    inside it ([Date.now()] for [updatedAt] and for [lastUpdateTime], the
    clock of the cache at each [set]) are one instant, as in [publish]. *)
Definition in_step (st : State) : Prop :=
  let c := liveCache st in
  (c !! LIVE_KEYS.DASHBOARD = None /\ c !! LIVE_KEYS.BLOCKS = None /\
   c !! LIVE_KEYS.TIP_HEIGHT = None /\ c !! LIVE_KEYS.MEMPOOL = None /\
   lastUpdateTime st = 0) \/
  (exists d bs m,
     let t := lastUpdateTime st in
     c !! LIVE_KEYS.DASHBOARD = Some (mkEntry (VDashboard d) t) /\
     c !! LIVE_KEYS.BLOCKS = Some (mkEntry (VBlocks bs) t) /\
     c !! LIVE_KEYS.TIP_HEIGHT
       = Some (mkEntry (VTipHeight (Dashboard.tipHeight d)) t) /\
     c !! LIVE_KEYS.MEMPOOL = Some (mkEntry (VMempool m) t) /\
     Dashboard.blocks d = take 15 bs /\
     Dashboard.mempoolCount d = Z.of_nat (length m) /\
     Dashboard.updatedAt d = t).

(** ** Routes of src/server.js that read the live cache *)

(** [GET /api/dashboard] (lines 454 to 484): the body sent, status 200
    with the snapshot and [isFresh], or status 503.  The handler starts
    at [now]; when the cache is empty it awaits [cache.updateManager()],
    whose cycle (if one runs) is fed by [inp], and resumes at [now'].
    [updateManager] never rejects, so the status 500 of the handler is
    not reached. *)
Inductive DashboardReply :=
| DashboardJson (d : Dashboard.t) (isFresh : bool)
| DataNotReady.

Definition api_dashboard (now : Z) (inp : CycleInput) (now' : Z)
    (st : State) : State * DashboardReply :=
  match getDashboard now (liveCache st) with
  | Some d => (st, DashboardJson d (isCacheFresh now st))
  | None =>
      let st' := final (updateManager inp st) in
      match getDashboard now' (liveCache st') with
      | Some d => (st', DashboardJson d (isCacheFresh now' st'))
      | None => (st', DataNotReady)
      end
  end.

(** [Math.ceil(a / b)] for integers [a] and [b > 0]. *)
Definition Math_ceil_div (a b : Z) : Z := - ((- a) / b).

(** [GET /api/blocks/recent] (lines 487 to 521).  [pageParam] is the
    value of [parseInt(req.query.page)], [None] for NaN; [tipAnswer] and
    [blocksAnswer] are what [/blocks/tip/height] and
    [/blocks/<startHeight>] answer when they are asked.  The result is
    the body sent, or the message of status 500, and the endpoints
    asked. *)
Record BlocksPage := mkBlocksPage {
  bp_blocks : list Block.t;
  bp_tipHeight : Z;
  bp_currentPage : Z;
  bp_totalPages : Z;
  bp_isFresh : option bool
}.

Definition api_blocks_recent (now : Z) (pageParam : option Z)
    (tipAnswer : result Z) (blocksAnswer : Z -> result (list Block.t))
    (st : State) : result BlocksPage * list string :=
  let page := if truthyOpt pageParam then or0 pageParam else 1 in
  let cached :=
    if page =? 1 then
      match getBlocks now (liveCache st), getTipHeight now (liveCache st) with
      | Some blocks, Some tipHeight =>
          if truthy tipHeight then Some (blocks, tipHeight) else None
      | _, _ => None
      end
    else None in
  match cached with
  | Some (blocks, tipHeight) =>
      (Ok (mkBlocksPage (take 25 blocks) tipHeight 1
             (Math_ceil_div (tipHeight + 1) 25)
             (Some (isCacheFresh now st))),
       [])
  | None =>
      match tipAnswer with
      | Err msg => (Err msg, ["/blocks/tip/height"])
      | Ok tipHeight =>
          let startHeight := tipHeight - (page - 1) * 25 in
          let endpoint := "/blocks/" +:+ pretty startHeight in
          match blocksAnswer startHeight with
          | Err msg => (Err msg, ["/blocks/tip/height"; endpoint])
          | Ok blocks =>
              (Ok (mkBlocksPage blocks tipHeight page
                     (Math_ceil_div (tipHeight + 1) 25) None),
               ["/blocks/tip/height"; endpoint])
          end
      end
  end.

(** ** Display helpers of src/server.js (lines 51 to 77)

    A JavaScript string is the list of its code units; hashes, txids
    and addresses are ASCII. *)

Definition ellipsis : list Ascii.ascii := String.list_ascii_of_string "...".

(** [s.slice(0, k)] *)
Definition slice_first (k : nat) (s : list Ascii.ascii)
  : list Ascii.ascii := take k s.

(** [s.slice(-k)]: the last [k] code units; [-0] is [0], so the whole
    string when [k] is 0. *)
Definition slice_last (k : nat) (s : list Ascii.ascii)
  : list Ascii.ascii :=
  match k with
  | O => s
  | S _ => drop (length s - k) s
  end.

(** [formatHash(hash, length = 16)]; [None] is a missing hash.  The two
    slices take [length / 2] truncated to an integer. *)
Definition formatHash (hash : option (list Ascii.ascii)) (len : nat)
  : list Ascii.ascii :=
  match hash with
  | None => []
  | Some h =>
      if (len <? length h)%nat
      then slice_first (len / 2) h ++ ellipsis ++ slice_last (len / 2) h
      else h
  end.

(** [formatTimeAgo(timestamp)] with [Date.now()] equal to [now]. *)
Definition formatTimeAgo (now timestamp : Z) : string :=
  let diff := now / 1000 - timestamp in
  if diff <? 60 then pretty diff +:+ " seconds ago"
  else if diff <? 3600 then pretty (diff / 60) +:+ " minutes ago"
  else if diff <? 86400 then pretty (diff / 3600) +:+ " hours ago"
  else pretty (diff / 86400) +:+ " days ago".

(** A 64-digit transaction id. *)
Definition sample_txid : list Ascii.ascii :=
  String.list_ascii_of_string
    "4a5e1e4baab89f3a32518a88c31bc87f618f76673e2cc77ab2127b7afdeda33b".

(** ** The immutable cache as the page routes use it

    [immutableCache] of src/cache.js is an [LRUCache] with [max: 1000]
    and [ttl: 60 * 60 * 1000].  [State] keeps of it the transactions the
    Update Manager stores under [tx:] keys; the routes of src/server.js
    read and write it through [fetchFromElectrs] (lines 112 to 129), and
    what they are answered depends on its order of use, its capacity and
    the age of its entries, which are modelled here: the entries are
    listed from the most recently used to the least recently used. *)

Definition IMMUTABLE_TTL : Z := 60 * 60 * 1000.
Definition IMMUTABLE_MAX : nat := 1000.

(** The values the routes meet in the cache. *)
Inductive ImmValue :=
| ImmTx (tx : Tx.t)             (** a transaction *)
| ImmBlock (block : Block.t)    (** a block *)
| ImmTxs (txs : list Tx.t).     (** a page of the transactions of a block *)

Record ImmEntry := mkImmEntry {
  imm_key : string;
  imm_value : ImmValue;
  imm_start : Z
}.

Definition ImmutableLRU := list ImmEntry.

Definition imm_find (key : string) (c : ImmutableLRU) : option ImmEntry :=
  List.find (fun e => String.eqb (imm_key e) key) c.

Definition imm_delete (key : string) (c : ImmutableLRU) : ImmutableLRU :=
  List.filter (fun e => negb (String.eqb (imm_key e) key)) c.

(** [immutableCache.get(key)]: an entry older than the time to live is
    deleted and reads as [undefined]; an entry that is read becomes the
    most recently used one. *)
Definition LRUCache_get (now : Z) (key : string) (c : ImmutableLRU)
  : option ImmValue * ImmutableLRU :=
  match imm_find key c with
  | None => (None, c)
  | Some e =>
      if now - imm_start e >? IMMUTABLE_TTL
      then (None, imm_delete key c)
      else (Some (imm_value e), e :: imm_delete key c)
  end.

(** [immutableCache.set(key, value)]: the entry becomes the most
    recently used one and its age starts again; beyond [max] entries the
    least recently used one is dropped. *)
Definition LRUCache_set (now : Z) (key : string) (v : ImmValue)
    (c : ImmutableLRU) : ImmutableLRU :=
  take IMMUTABLE_MAX (mkImmEntry key v now :: imm_delete key c).

(** [endpoint.match(/^\/(tx|block)\/[a-f0-9]{64}/)] *)
Fixpoint strip_prefix (p s : list Ascii.ascii)
  : option (list Ascii.ascii) :=
  match p, s with
  | [], _ => Some s
  | a :: p', b :: s' => if Ascii.eqb a b then strip_prefix p' s' else None
  | _ :: _, [] => None
  end.

(** [[a-f0-9]] *)
Definition is_hex_digit (a : Ascii.ascii) : bool :=
  let n := Ascii.nat_of_ascii a in
  ((48 <=? n) && (n <=? 57) || (97 <=? n) && (n <=? 102))%nat.

(** [[a-f0-9]{64}] at the head of [s] *)
Definition hex64 (s : list Ascii.ascii) : bool :=
  (length (take 64 s) =? 64)%nat && forallb is_hex_digit (take 64 s).

Definition immutable_endpoint (endpoint : string) : bool :=
  let s := String.list_ascii_of_string endpoint in
  match strip_prefix (String.list_ascii_of_string "/tx/") s with
  | Some rest => hex64 rest
  | None =>
      match strip_prefix (String.list_ascii_of_string "/block/") s with
      | Some rest => hex64 rest
      | None => false
      end
  end.

(** What Electrs answers to a request, and when the answer arrives. *)
Record Response := mkResponse {
  answer : result ImmValue;
  settledAt : Z
}.

(** [fetchFromElectrs] of src/server.js, called at [now] on the cache
    [c]: the answer, the time and the cache when the caller resumes, and
    the requests sent to Electrs.  A cached value is returned without a
    request; an answer of Electrs is stored when the endpoint is one of
    a transaction or of a block named by its hash; a rejected request
    throws and stores nothing. *)
Record Fetched := mkFetched {
  f_data : result ImmValue;
  f_now : Z;
  f_cache : ImmutableLRU;
  f_asked : list string
}.

Definition server_fetchFromElectrs (electrs : string -> Z -> Response)
    (endpoint : string) (now : Z) (c : ImmutableLRU) : Fetched :=
  match LRUCache_get now endpoint c with
  | (Some cached, c') => mkFetched (Ok cached) now c' []
  | (None, c') =>
      let r := electrs endpoint now in
      match answer r with
      | Err msg => mkFetched (Err msg) (settledAt r) c' [endpoint]
      | Ok data =>
          mkFetched (Ok data) (settledAt r)
            (if immutable_endpoint endpoint
             then LRUCache_set (settledAt r) endpoint data c'
             else c')
            [endpoint]
      end
  end.

(** ** [GET /transactions] of src/server.js (lines 255 to 286)

    A transaction of the page, with the height and time of its block. *)
Record RecentTx := mkRecentTx {
  rt_tx : Tx.t;
  rt_block_height : Z;
  rt_block_time : Z
}.

(** [`/block/${block.id}/txs/0`] *)
Definition block_txs_endpoint (block : Block.t) : string :=
  "/block/" +:+ Block.id block +:+ "/txs/0".

(** The loop over the blocks, entered at [now] with the cache [c]: each
    block is asked for through [fetchFromElectrs]; a fetch that throws
    is skipped, and so is an answer that is not an array ([txs.map] is
    not a function there, which throws inside the same [try]); the loop
    breaks once 25 transactions are collected.  [w_asked] lists the
    requests sent to Electrs, in order.  The request is followed on its
    own: no other handler touches the cache between its awaits. *)
Record Walk := mkWalk {
  w_recentTxs : list RecentTx;
  w_now : Z;
  w_cache : ImmutableLRU;
  w_asked : list string
}.

Fixpoint collectRecent (electrs : string -> Z -> Response)
    (blocks : list Block.t) (now : Z) (c : ImmutableLRU)
    (recentTxs : list RecentTx) (asked : list string) : Walk :=
  match blocks with
  | [] => mkWalk recentTxs now c asked
  | block :: rest =>
      let f := server_fetchFromElectrs electrs (block_txs_endpoint block)
                 now c in
      let asked' := asked ++ f_asked f in
      match f_data f with
      | Ok (ImmTxs txs) =>
          let recentTxs' :=
            recentTxs
            ++ map (fun tx => mkRecentTx tx (Block.height block)
                                (Block.timestamp block)) txs in
          if (25 <=? length recentTxs')%nat
          then mkWalk recentTxs' (f_now f) (f_cache f) asked'
          else collectRecent electrs rest (f_now f) (f_cache f)
                 recentTxs' asked'
      | Ok _ | Err _ =>
          collectRecent electrs rest (f_now f) (f_cache f) recentTxs asked'
      end
  end.

Inductive TransactionsReply :=
| TransactionsPage (mempool : list string) (recentTxs : list RecentTx)
| TransactionsError (message : string).

(** The route.  Its first two requests, [/mempool/recent] and
    [/blocks], go through [fetchFromElectrs] as well, but neither
    endpoint is one the wrapper stores, and no other writer of the cache
    uses such a key (the Update Manager writes under [tx:]), so that
    they are always answered by Electrs: [mempoolAnswer] and
    [blocksAnswer], the second one arriving at [now].  The reply comes
    with the cache the request leaves and the requests it sent. *)
Definition transactions_route (now : Z)
    (mempoolAnswer : result (list string))
    (blocksAnswer : result (list Block.t))
    (electrs : string -> Z -> Response) (c : ImmutableLRU)
  : TransactionsReply * ImmutableLRU * list string :=
  let mempool := catch_default mempoolAnswer [] in
  match blocksAnswer with
  | Err msg => (TransactionsError msg, c, ["/mempool/recent"; "/blocks"])
  | Ok blocks =>
      let w := collectRecent electrs (take 5 blocks) now c [] [] in
      (TransactionsPage mempool (take 25 (w_recentTxs w)), w_cache w,
       ["/mempool/recent"; "/blocks"] ++ w_asked w)
  end.

(** Two blocks named by their hashes, each with its coinbase
    transaction as its page. *)
Definition hashed_block (digit : string) (height : Z) : Block.t :=
  Block.mk
    ("000000000000000000000000000000000000000000000000000000000000000"
       +:+ digit)
    height (1704067200 + height) (Some 1) (Some 1000) (Some 1000%Q).

Definition page_of (block : Block.t) : list Tx.t :=
  [Tx.mk ("cb" +:+ Block.id block) [Vin.mk true]
     [Vout.mk (Some 5000000000)]].

Definition hashed_blocks : list Block.t :=
  [hashed_block "b" 101; hashed_block "a" 100].

(** Electrs answering every block with its page, one second later. *)
Definition electrs_up (endpoint : string) (now : Z) : Response :=
  mkResponse
    (match List.find
             (fun b => String.eqb (block_txs_endpoint b) endpoint)
             hashed_blocks with
     | Some b => Ok (ImmTxs (page_of b))
     | None => Err "Request failed with status code 404"
     end)
    (now + 1000).

(** Electrs rejecting every request after ten seconds. *)
Definition electrs_down (endpoint : string) (now : Z) : Response :=
  mkResponse (Err "timeout of 10000ms exceeded") (now + 10000).

(** An entry of the cache after [asked] was requested: an entry of the
    cache [c0] the request started from, or an answer of Electrs to a
    request of [asked], stored under an endpoint the wrapper stores. *)
Definition kept (electrs : string -> Z -> Response) (c0 : ImmutableLRU)
    (asked : list string) (e : ImmEntry) : Prop :=
  In e c0 \/
  (In (imm_key e) asked /\ immutable_endpoint (imm_key e) = true /\
   exists t, answer (electrs (imm_key e) t) = Ok (imm_value e)).

(** A value answered for [endpoint]: the value of an entry of [c0]
    under that key, or an answer of Electrs to a request of [asked]. *)
Definition answered (electrs : string -> Z -> Response) (c0 : ImmutableLRU)
    (asked : list string) (endpoint : string) (v : ImmValue) : Prop :=
  (exists e, In e c0 /\ imm_key e = endpoint /\ imm_value e = v) \/
  (In endpoint asked /\ exists t, answer (electrs endpoint t) = Ok v).

(** The cache holds, at [now], an entry for [key] that has not
    expired. *)
Definition cached (now : Z) (key : string) (c : ImmutableLRU) : Prop :=
  exists e, imm_find key c = Some e /\ now - imm_start e <= IMMUTABLE_TTL.

(** A transaction of the page comes from the page of one of the blocks
    [seen], answered for the endpoint of that block, and carries the
    height and time of that block. *)
Definition shown_from (electrs : string -> Z -> Response)
    (c0 : ImmutableLRU) (asked : list string) (seen : list Block.t)
    (r : RecentTx) : Prop :=
  exists block txs,
    In block seen /\ In (rt_tx r) txs /\
    rt_block_height r = Block.height block /\
    rt_block_time r = Block.timestamp block /\
    answered electrs c0 asked (block_txs_endpoint block) (ImmTxs txs).

(** * Properties *)

(** ** The single-flight guard *)

Section SingleFlight.

Lemma enter_running st :
  updateManagerRunning st = true -> enter st = None.
Proof. unfold enter. intros ->. reflexivity. Qed.

Lemma enter_idle st st' :
  enter st = Some st' ->
  updateManagerRunning st = false /\ updateManagerRunning st' = true.
Proof.
  unfold enter. destruct (updateManagerRunning st) eqn:E; [discriminate|].
  intros [= <-]. split; reflexivity.
Qed.

Lemma publish_releases now l r st :
  updateManagerRunning (publish now l r st).1 = false.
Proof. reflexivity. Qed.

Lemma after_reward_releases now r l st :
  updateManagerRunning (after_reward now r l st).1 = false.
Proof.
  unfold after_reward.
  destruct r as [txs|]; [destruct (coinbase_of txs)|]; reflexivity.
Qed.

(** After the fan-out a cycle either ended with the flag released, or
    is suspended with the shared state exactly as it found it. *)
Lemma after_fanout_cases now f st :
  match after_fanout now f st with
  | (st', Done _) => updateManagerRunning st' = false
  | (st', Wait _ _) => st' = st
  end.
Proof.
  unfold after_fanout.
  destruct (f_blocks f) as [blocks|]; [|reflexivity].
  destruct (f_tipHeight f); [|reflexivity].
  destruct (blocks !! 0%nat); [|reflexivity].
  destruct (truthyOpt _); reflexivity.
Qed.

Lemma single_flight_step m e m' :
  single_flight_inv m -> step m e = Some m' -> single_flight_inv m'.
Proof.
  intros [Hlen Hflag] Hstep. destruct e as [|i now f|i now r]; simpl in Hstep.
  - destruct (enter (shared m)) as [st|] eqn:E.
    + apply enter_idle in E as [Hoff Hon]. injection Hstep as <-.
      assert (inflight m = []) as ->.
      { destruct (inflight m); [done|]. exfalso.
        assert (updateManagerRunning (shared m) = true) by (apply Hflag; done).
        congruence. }
      split; simpl; [lia|]. split; [done|auto].
    + injection Hstep as <-. split; assumption.
  - destruct (inflight m) as [|p [|q tl]] eqn:El; simpl in Hlen; try lia.
    { rewrite lookup_nil in Hstep. discriminate. }
    destruct i as [|i]; [|rewrite lookup_cons_ne_0 in Hstep by lia;
                           rewrite lookup_nil in Hstep; discriminate].
    simpl in Hstep. destruct p; [|discriminate].
    pose proof (after_fanout_cases now f (shared m)) as Hc.
    destruct (after_fanout now f (shared m)) as [st [o|ep l]];
      injection Hstep as <-; simpl.
    + split; [simpl; lia|]. simpl. rewrite Hc. split; [discriminate|done].
    + subst st. split; [simpl; lia|]. simpl. split; [discriminate|].
      intros _. apply Hflag. done.
  - destruct (inflight m) as [|p [|q tl]] eqn:El; simpl in Hlen; try lia.
    { rewrite lookup_nil in Hstep. discriminate. }
    destruct i as [|i]; [|rewrite lookup_cons_ne_0 in Hstep by lia;
                           rewrite lookup_nil in Hstep; discriminate].
    simpl in Hstep. destruct p as [|ep l]; [discriminate|].
    pose proof (after_reward_releases now r l (shared m)) as Hc.
    destruct (after_reward now r l (shared m)) as [st o].
    injection Hstep as <-. simpl in *.
    split; simpl; [lia|]. rewrite Hc. split; [discriminate|done].
Qed.

Lemma single_flight_reachable m : reachable m -> single_flight_inv m.
Proof.
  induction 1 as [st|m e m' _ IH Hstep].
  - split; simpl; [lia|]. split; [discriminate|done].
  - eapply single_flight_step; eassumption.
Qed.

(** A step that takes an activation away is the end of a cycle. *)
Lemma exit_releases m e m' :
  single_flight_inv m -> step m e = Some m' ->
  (length (inflight m') < length (inflight m))%nat ->
  updateManagerRunning (shared m') = false /\ inflight m' = [].
Proof.
  intros Hinv Hstep Hlt.
  pose proof (single_flight_step _ _ _ Hinv Hstep) as [Hlen' Hflag'].
  destruct Hinv as [Hlen _].
  assert (inflight m' = []) as Hnil
    by (destruct (inflight m'); [done|simpl in *; lia]).
  split; [|exact Hnil].
  destruct (updateManagerRunning (shared m')); [|done].
  exfalso. apply Hflag'; done.
Qed.

(** The cycle body is entered only by a call made while idle. *)
Lemma body_entered m e m' :
  step m e = Some m' -> started m' <> started m ->
  e = Call /\ updateManagerRunning (shared m) = false /\
  started m' = S (started m).
Proof.
  intros Hstep Hne. destruct e as [|i now f|i now r]; simpl in Hstep.
  - destruct (enter (shared m)) as [st|] eqn:E.
    + apply enter_idle in E as [Hoff _]. injection Hstep as <-. done.
    + injection Hstep as <-. done.
  - destruct (inflight m !! i) as [[|]|]; try discriminate.
    destruct (after_fanout now f (shared m)).
    injection Hstep as <-. done.
  - destruct (inflight m !! i) as [[|]|]; try discriminate.
    destruct (after_reward now r l (shared m)).
    injection Hstep as <-. done.
Qed.

End SingleFlight.

(** C1. In every configuration the event loop can reach, at most one
    activation of the cycle body is suspended and the flag
    [updateManagerRunning] is up exactly while there is one; a call of
    [updateManager] made meanwhile changes nothing (it is dropped, no
    queue exists); the cycle body is entered only by a call made with no
    cycle in flight; and every step that ends a cycle, by publishing or
    by an error, leaves the flag released. *)
Theorem updateManager_single_flight (m : Machine) :
  reachable m ->
  (length (inflight m) <= 1)%nat /\
  (updateManagerRunning (shared m) = true <-> inflight m <> []) /\
  (inflight m <> [] -> step m Call = Some m) /\
  (forall e m', step m e = Some m' -> started m' <> started m ->
     e = Call /\ inflight m = [] /\ started m' = S (started m)) /\
  (forall e m', step m e = Some m' ->
     (length (inflight m') < length (inflight m))%nat ->
     updateManagerRunning (shared m') = false /\ inflight m' = []).
Proof.
  intros Hr. pose proof (single_flight_reachable m Hr) as Hinv.
  destruct Hinv as [Hlen Hflag].
  split; [exact Hlen|]. split; [exact Hflag|]. split; [|split].
  - intros Hbusy. simpl. rewrite enter_running; [reflexivity|].
    apply Hflag, Hbusy.
  - intros e m' Hstep Hne.
    destruct (body_entered m e m' Hstep Hne) as (-> & Hoff & HS).
    split; [reflexivity|]. split; [|exact HS].
    destruct (inflight m) eqn:E; [reflexivity|].
    assert (updateManagerRunning (shared m) = true) by (apply Hflag; done).
    congruence.
  - intros e m' Hstep Hlt.
    apply (exit_releases m e m'); [split; assumption|assumption|assumption].
Qed.

(** A cycle in flight after one call on the freshly loaded module. *)
Lemma updateManager_single_flight_witness :
  let m := mkMachine (mkState true 0 ∅ ∅ None) [AwaitFanout] 1 in
  reachable m /\
  (length (inflight m) <= 1)%nat /\
  (updateManagerRunning (shared m) = true <-> inflight m <> []) /\
  (inflight m <> [] -> step m Call = Some m) /\
  (forall e m', step m e = Some m' -> started m' <> started m ->
     e = Call /\ inflight m = [] /\ started m' = S (started m)) /\
  (forall e m', step m e = Some m' ->
     (length (inflight m') < length (inflight m))%nat ->
     updateManagerRunning (shared m') = false /\ inflight m' = []).
Proof.
  intros m.
  assert (reachable m) as Hr.
  { apply (reach_step (boot initial) Call m); [apply reach_boot|reflexivity]. }
  split; [exact Hr|]. exact (updateManager_single_flight m Hr).
Defined.

(** ** What one cycle does *)

Section Cycle.

Lemma release_idle st : updateManagerRunning st = false -> release st = st.
Proof. destruct st. simpl. intros ->. reflexivity. Qed.

Lemma enter_Some st :
  updateManagerRunning st = false ->
  enter st = Some (mkState true (lastUpdateTime st) (liveCache st)
                     (immutableCache st) (db st)).
Proof. unfold enter. intros ->. reflexivity. Qed.

(** The five live keys are pairwise different. *)
Lemma live_keys_distinct :
  NoDup [LIVE_KEYS.DASHBOARD; LIVE_KEYS.BLOCKS; LIVE_KEYS.TIP_HEIGHT;
         LIVE_KEYS.MEMPOOL; LIVE_KEYS.BLOCK_REWARD].
Proof. compute_done. Qed.

Lemma publish_outcome now l r st :
  (publish now l r st).2 = Published (snapshot now l r).
Proof. reflexivity. Qed.

Lemma publish_lastUpdateTime now l r st :
  lastUpdateTime (publish now l r st).1 = now.
Proof. reflexivity. Qed.

Lemma publish_dashboard now l r st :
  liveCache (publish now l r st).1 !! LIVE_KEYS.DASHBOARD
  = Some (mkEntry (VDashboard (snapshot now l r)) now).
Proof.
  unfold publish, setLive; simpl.
  destruct (truthyOpt r); repeat (rewrite lookup_insert_ne by done);
    apply lookup_insert_eq.
Qed.

Lemma publish_mempool now l r st :
  liveCache (publish now l r st).1 !! LIVE_KEYS.MEMPOOL
  = Some (mkEntry (VMempool (l_mempool l)) now).
Proof.
  unfold publish, setLive; simpl.
  destruct (truthyOpt r); repeat (rewrite lookup_insert_ne by done);
    apply lookup_insert_eq.
Qed.

(** The reward key is written only with a truthy reward. *)
Lemma publish_reward_key now l r st :
  liveCache (publish now l r st).1 !! LIVE_KEYS.BLOCK_REWARD
  = if truthyOpt r then Some (mkEntry (VReward (or0 r)) now)
    else liveCache st !! LIVE_KEYS.BLOCK_REWARD.
Proof.
  unfold publish, setLive; simpl.
  destruct (truthyOpt r).
  - apply lookup_insert_eq.
  - repeat (rewrite lookup_insert_ne by done). reflexivity.
Qed.

Lemma setImmutable_liveCache k v st :
  liveCache (setImmutable k v st) = liveCache st.
Proof. reflexivity. Qed.

Lemma truthyOpt_or0 r : truthyOpt r = true -> or0 r <> 0.
Proof.
  destruct r as [v|]; simpl; [|discriminate].
  unfold truthy. destruct (Z.eqb_spec v 0); [discriminate|auto].
Qed.

Lemma truthyOpt_false r : truthyOpt r = false -> or0 r = 0.
Proof.
  destruct r as [v|]; simpl; [|reflexivity].
  unfold truthy. destruct (Z.eqb_spec v 0); [auto|discriminate].
Qed.

(** A cycle whose blocks or tip-height fetch is rejected. *)
Lemma after_fanout_rejected now f st :
  (exists msg, f_blocks f = Err msg) \/ (exists msg, f_tipHeight f = Err msg) ->
  after_fanout now f st = (release st, Done Aborted).
Proof.
  unfold after_fanout. intros [[msg ->]|[msg ->]]; [reflexivity|].
  destruct (f_blocks f); reflexivity.
Qed.

(** A cycle whose blocks and tip-height fetches are fulfilled ends by
    [publish], with some reward in hand, at the time of its last
    continuation; and the reward is fetched only when the cached one
    is falsy and there is a newest block. *)
Lemma updateManager_fulfilled inp st blocks tip :
  updateManagerRunning st = false ->
  f_blocks (c_fanout inp) = Ok blocks ->
  f_tipHeight (c_fanout inp) = Ok tip ->
  let l := derive blocks tip
             (catch_default (f_mempool (c_fanout inp)) [])
             (catch_default (f_supply (c_fanout inp))
                (Supply.mk (Some 0%Q))) in
  let cached := getBlockReward (c_fanoutTime inp) (liveCache st) in
  exists now r st1 req,
    updateManager inp st
    = mkCycleResult (publish now l r st1).1 (publish now l r st1).2 req /\
    liveCache st1 = liveCache st /\ db st1 = db st /\
    ((req = None /\ now = c_fanoutTime inp /\ r = cached /\
      (truthyOpt cached = true \/ blocks = [])) \/
     (exists b0 rest, blocks = b0 :: rest /\ truthyOpt cached = false /\
        req = Some (reward_endpoint b0) /\ now = c_rewardTime inp /\
        r = match c_reward inp with
            | Ok txs => match coinbase_of txs with
                        | Some tx => Some (sum_vout (Tx.vout tx))
                        | None => None
                        end
            | Err _ => None
            end)).
Proof.
  intros Hidle Hb Ht l cached. unfold updateManager.
  rewrite (enter_Some st Hidle). unfold after_fanout. rewrite Hb, Ht.
  fold l. simpl liveCache. fold cached.
  destruct blocks as [|b0 rest]; simpl lookup.
  - eexists _, _, _, _. split; [reflexivity|].
    split; [reflexivity|]. split; [reflexivity|]. left. auto.
  - destruct (truthyOpt cached) eqn:Ec.
    + eexists _, _, _, _. split; [reflexivity|].
      split; [reflexivity|]. split; [reflexivity|]. left. auto.
    + unfold after_reward.
      destruct (c_reward inp) as [txs|msg]; [destruct (coinbase_of txs) as [tx|]|].
      all: eexists _, _, _, _; (split; [reflexivity|]);
        (split; [reflexivity|]); (split; [reflexivity|]);
        right; exists b0, rest; auto.
Qed.

End Cycle.

(** Close a goal about the [publish] it contains with a lemma stated for
    every [publish]. *)
Ltac by_publish lem :=
  match goal with
  | |- context [publish ?n ?l ?r ?s] => exact (lem n l r s)
  end.

(** A cycle writes no live key but the five of [LIVE_KEYS]; the live
    cache of the running process therefore never holds more than five
    entries and its capacity of 100 is never reached. *)
Lemma publish_keys now l r st :
  dom (liveCache (publish now l r st).1) ⊆ dom (liveCache st) ∪ live_key_set.
Proof.
  unfold publish, setLive, live_key_set; simpl.
  destruct (truthyOpt r); rewrite !dom_insert_L; apply elem_of_subseteq;
    intros k; rewrite !elem_of_union, !elem_of_singleton; tauto.
Qed.

Lemma updateManager_keys inp st :
  dom (liveCache (final (updateManager inp st)))
  ⊆ dom (liveCache st) ∪ live_key_set.
Proof.
  unfold updateManager, enter.
  destruct (updateManagerRunning st); [apply union_subseteq_l|].
  unfold after_fanout.
  destruct (f_blocks (c_fanout inp)) as [blocks|]; [|apply union_subseteq_l].
  destruct (f_tipHeight (c_fanout inp)) as [tip|]; [|apply union_subseteq_l].
  destruct (blocks !! 0%nat) as [b0|]; [|by_publish publish_keys].
  destruct (truthyOpt _); [by_publish publish_keys|].
  unfold after_reward.
  destruct (c_reward inp) as [txs|]; [destruct (coinbase_of txs)|];
    by_publish publish_keys.
Qed.

Lemma run_cycles_keys inps :
  dom (liveCache (run_cycles inps initial)) ⊆ live_key_set /\
  (size (liveCache (run_cycles inps initial)) <= 5)%nat.
Proof.
  assert (forall st, dom (liveCache st) ⊆ live_key_set ->
            dom (liveCache (run_cycles inps st)) ⊆ live_key_set) as Hall.
  { unfold run_cycles. induction inps as [|inp tl IH]; simpl; intros st Hst;
      [exact Hst|].
    apply IH. etrans; [apply updateManager_keys|].
    apply union_least; [exact Hst|reflexivity]. }
  assert (dom (liveCache (run_cycles inps initial)) ⊆ live_key_set) as Hsub
    by (apply Hall; simpl; rewrite dom_empty_L; apply empty_subseteq).
  split; [exact Hsub|].
  rewrite <- size_dom. apply subseteq_size in Hsub.
  assert (size live_key_set = 5%nat) as H5 by (vm_compute; reflexivity).
  lia.
Qed.

(** The cycle function is the event loop running the events of one
    cycle from an idle configuration: the cycle ends, nothing is left
    suspended, and the body was entered once. *)
Lemma updateManager_run inp st n :
  updateManagerRunning st = false ->
  run (mkMachine st [] n) (events_of inp st)
  = Some (mkMachine (final (updateManager inp st)) [] (S n)).
Proof.
  intros Hidle. unfold events_of, updateManager.
  cbn [run step shared inflight started]. rewrite (enter_Some st Hidle).
  cbn [app lookup list_lookup shared inflight started].
  destruct (after_fanout _ _ _) as [st2 [o|ep l]];
    cbn [rewardRequest run step shared inflight started resume final].
  - reflexivity.
  - destruct (after_reward _ _ _ _) as [st3 o] eqn:E.
    cbn [rewardRequest run step shared inflight started resume final
         lookup list_lookup insert list_insert].
    rewrite E. reflexivity.
Qed.

(** C2. In a cycle that runs, when the blocks and tip-height fetches are
    fulfilled the cycle publishes a snapshot whatever the mempool and
    supply fetches did: a rejected mempool fetch counts as the empty
    list (count 0, the live mempool key holds []), a rejected supply
    fetch as supply 0; the snapshot is stored under the dashboard key and
    [lastUpdateTime] is stamped.  When the blocks fetch or the tip-height
    fetch is rejected the cycle aborts and leaves the whole state (every
    live key, [lastUpdateTime], the immutable cache, the store) as it
    was. *)
Theorem updateManager_partial_failure (inp : CycleInput) (st : State) :
  updateManagerRunning st = false ->
  let f := c_fanout inp in
  let res := updateManager inp st in
  (forall blocks tip,
     f_blocks f = Ok blocks -> f_tipHeight f = Ok tip ->
     exists d,
       outcome res = Published d /\
       liveCache (final res) !! LIVE_KEYS.DASHBOARD
         = Some (mkEntry (VDashboard d) (Dashboard.updatedAt d)) /\
       lastUpdateTime (final res) = Dashboard.updatedAt d /\
       Dashboard.mempoolCount d
         = Z.of_nat (length (catch_default (f_mempool f) [])) /\
       liveCache (final res) !! LIVE_KEYS.MEMPOOL
         = Some (mkEntry (VMempool (catch_default (f_mempool f) []))
                   (Dashboard.updatedAt d)) /\
       ((exists msg, f_mempool f = Err msg) -> Dashboard.mempoolCount d = 0) /\
       ((exists msg, f_supply f = Err msg) -> Dashboard.supply d = 0%Q)) /\
  ((exists msg, f_blocks f = Err msg) \/ (exists msg, f_tipHeight f = Err msg) ->
   outcome res = Aborted /\ final res = st).
Proof.
  intros Hidle f res. split.
  - intros blocks tip Hb Ht.
    destruct (updateManager_fulfilled inp st blocks tip Hidle Hb Ht)
      as (now & r & st1 & req & Hres & _).
    subst res. rewrite Hres. simpl final. simpl outcome.
    eexists. split; [reflexivity|].
    split; [apply publish_dashboard|].
    split; [apply publish_lastUpdateTime|].
    split; [reflexivity|].
    split; [apply publish_mempool|].
    fold f. split.
    + intros [msg ->]. reflexivity.
    + intros [msg ->]. reflexivity.
  - intros Hrej. subst res. unfold updateManager.
    rewrite (enter_Some st Hidle).
    rewrite (after_fanout_rejected _ _ _ Hrej). simpl.
    split; [reflexivity|]. destruct st; simpl in *. rewrite Hidle. reflexivity.
Qed.

(** A degraded cycle and an aborted one, on the freshly loaded module. *)
Lemma updateManager_partial_failure_witness :
  updateManagerRunning initial = false /\
  (exists d, outcome (updateManager (Sample.cycle_degraded Sample.t0) initial)
             = Published d /\
             Dashboard.mempoolCount d = 0 /\ Dashboard.supply d = 0%Q) /\
  final (updateManager (Sample.cycle_no_blocks Sample.t0) initial) = initial.
Proof.
  split; [reflexivity|]. split.
  - destruct (updateManager_partial_failure
                (Sample.cycle_degraded Sample.t0) initial eq_refl) as [Hpub _].
    destruct (Hpub Sample.blocks 101 eq_refl eq_refl)
      as (d & Ho & _ & _ & _ & _ & Hm & Hs).
    exists d. split; [exact Ho|].
    split; [apply Hm; exists "timeout"; reflexivity
           |apply Hs; exists "timeout"; reflexivity].
  - apply (updateManager_partial_failure
             (Sample.cycle_no_blocks Sample.t0) initial eq_refl).
    left. exists "ECONNREFUSED". reflexivity.
Defined.

(** ** The block reward *)

Lemma getBlockReward_live now c r t :
  c !! LIVE_KEYS.BLOCK_REWARD = Some (mkEntry (VReward r) t) ->
  now - t <= LIVE_TTL ->
  getBlockReward now c = Some r.
Proof.
  intros Hc Hage. unfold getBlockReward, getLive. rewrite Hc.
  unfold isStale. simpl.
  destruct (Z.gtb_spec (now - t) LIVE_TTL); [lia|reflexivity].
Qed.

Lemma getBlockReward_expired now c e :
  c !! LIVE_KEYS.BLOCK_REWARD = Some e ->
  LIVE_TTL < now - entry_start e ->
  getBlockReward now c = None.
Proof.
  intros Hc Hage. unfold getBlockReward, getLive. rewrite Hc.
  unfold isStale.
  destruct (Z.gtb_spec (now - entry_start e) LIVE_TTL); [reflexivity|lia].
Qed.

(** C3, as stated, fails.  The reward 5000000000 is derived and cached
    by the cycle at [Sample.t0]; the upstream is then down and the next
    six cycles abort; when the last of them ends the reward is still
    readable from the live cache.  Ten seconds later the cached entry is
    older than the ttl of the live cache, the next cycle fetches the
    coinbase again, the fetch is rejected, and the snapshot it publishes
    reports 0. *)
Lemma blockReward_sticky_counterexample :
  let stN := run_cycles outage initial in
  let res := updateManager (Sample.cycle_reward_fails (Sample.t0 + 70000)) stN in
  getBlockReward (Sample.t0 + 60000) (liveCache stN) = Some 5000000000 /\
  rewardRequest res = Some "/block/00a1/txs/0" /\
  reward_fetch_failed (c_reward (Sample.cycle_reward_fails (Sample.t0 + 70000))) /\
  exists d, outcome res = Published d /\
            Dashboard.blockReward d = 0 /\
            Dashboard.blockReward d <> 5000000000.
Proof.
  vm_compute. split; [reflexivity|]. split; [reflexivity|]. split; [exact I|].
  eexists. split; [reflexivity|]. split; [reflexivity|discriminate].
Qed.

(** C3, amended.  In a cycle that gets past the fan-out: if the live
    reward key holds a non-zero [r] and the cycle reads it no later than
    the ttl of the live cache after it was written, the reward fetch is
    skipped, the snapshot reports [r], and the key is written again with
    [r]; if the cycle finds no truthy reward in the cache and the reward
    fetch brings no coinbase, the snapshot reports 0 and nothing is
    written under the reward key. *)
Theorem blockReward_sticky_within_ttl
    (inp : CycleInput) (st : State) (blocks : list Block.t) (tip : Z) :
  updateManagerRunning st = false ->
  f_blocks (c_fanout inp) = Ok blocks ->
  f_tipHeight (c_fanout inp) = Ok tip ->
  let res := updateManager inp st in
  exists d,
    outcome res = Published d /\
    (forall r t,
       liveCache st !! LIVE_KEYS.BLOCK_REWARD = Some (mkEntry (VReward r) t) ->
       r <> 0 -> c_fanoutTime inp - t <= LIVE_TTL ->
       rewardRequest res = None /\
       Dashboard.blockReward d = r /\
       liveCache (final res) !! LIVE_KEYS.BLOCK_REWARD
         = Some (mkEntry (VReward r) (Dashboard.updatedAt d))) /\
    (truthyOpt (getBlockReward (c_fanoutTime inp) (liveCache st)) = false ->
     reward_fetch_failed (c_reward inp) ->
     Dashboard.blockReward d = 0 /\
     reward_not_written (liveCache st) (liveCache (final res))).
Proof.
  intros Hidle Hb Ht res.
  destruct (updateManager_fulfilled inp st blocks tip Hidle Hb Ht)
    as (now & r0 & st1 & req & Hres & Hlive & _ & Hcase).
  subst res. rewrite Hres. cbn [final outcome rewardRequest].
  eexists. split; [reflexivity|]. split.
  - intros r t Hkey Hr Hage.
    pose proof (getBlockReward_live _ _ _ _ Hkey Hage) as Hget.
    assert (truthyOpt (Some r) = true) as Htr.
    { simpl. unfold truthy. destruct (Z.eqb_spec r 0); [contradiction|reflexivity]. }
    destruct Hcase as [(-> & -> & -> & _)|(b0 & rest & _ & Hfalse & _)].
    + rewrite Hget. split; [reflexivity|]. split; [reflexivity|].
      rewrite publish_reward_key, Htr. reflexivity.
    + rewrite Hget, Htr in Hfalse. discriminate.
  - intros Hfalsy Hfail.
    assert (truthyOpt r0 = false) as Hr0.
    { destruct Hcase as [(_ & _ & -> & _)|(b0 & rest & _ & _ & _ & _ & ->)].
      - exact Hfalsy.
      - unfold reward_fetch_failed in Hfail.
        destruct (c_reward inp) as [txs|]; [rewrite Hfail|]; reflexivity. }
    split.
    + simpl. apply truthyOpt_false, Hr0.
    + intros e. rewrite publish_reward_key, Hr0, Hlive. auto.
Qed.

(** The reward cached by a good cycle is reported by the cycle that runs
    ten seconds later, whose reward fetch would have been rejected. *)
Lemma blockReward_sticky_within_ttl_witness :
  let st := final (updateManager (Sample.cycle_ok Sample.t0) initial) in
  let res := updateManager (Sample.cycle_reward_fails (Sample.t0 + 10000)) st in
  updateManagerRunning st = false /\
  exists d, outcome res = Published d /\ Dashboard.blockReward d = 5000000000.
Proof.
  intros st res. split; [reflexivity|].
  destruct (blockReward_sticky_within_ttl
              (Sample.cycle_reward_fails (Sample.t0 + 10000)) st
              Sample.blocks 101 eq_refl eq_refl eq_refl)
    as (d & Ho & Hsticky & _).
  exists d. split; [exact Ho|].
  apply (Hsticky 5000000000 (Sample.t0 + 40)).
  - vm_compute. reflexivity.
  - discriminate.
  - vm_compute. discriminate.
Defined.

(** A reward that is falsy when read stays falsy as time passes, as long
    as the key is not written. *)
Lemma getBlockReward_stays_falsy t t' c :
  t <= t' ->
  truthyOpt (getBlockReward t c) = false ->
  truthyOpt (getBlockReward t' c) = false.
Proof.
  unfold getBlockReward, getLive, isStale. intros Hle.
  destruct (c !! LIVE_KEYS.BLOCK_REWARD) as [e|]; [|auto].
  destruct (Z.gtb_spec (t - entry_start e) LIVE_TTL);
    destruct (Z.gtb_spec (t' - entry_start e) LIVE_TTL); auto; lia.
Qed.

Lemma reward_not_written_falsy t t' c c' :
  reward_not_written c c' -> t <= t' ->
  truthyOpt (getBlockReward t c) = false ->
  truthyOpt (getBlockReward t' c') = false.
Proof.
  intros Hnw Hle Hfalsy.
  destruct (c' !! LIVE_KEYS.BLOCK_REWARD) as [e|] eqn:E.
  - replace (getBlockReward t' c') with (getBlockReward t' c).
    + eapply getBlockReward_stays_falsy; eassumption.
    + unfold getBlockReward, getLive. rewrite E, (Hnw e E). reflexivity.
  - unfold getBlockReward, getLive. rewrite E. reflexivity.
Qed.

Lemma reward_not_written_trans c1 c2 c3 :
  reward_not_written c1 c2 -> reward_not_written c2 c3 ->
  reward_not_written c1 c3.
Proof. unfold reward_not_written. auto. Qed.

(** Whatever a call of [updateManager] does, an entry found under the
    reward key afterwards was there before or holds a non-zero reward. *)
Lemma reward_key_written_nonzero inp st e :
  liveCache (final (updateManager inp st)) !! LIVE_KEYS.BLOCK_REWARD = Some e ->
  liveCache st !! LIVE_KEYS.BLOCK_REWARD = Some e \/
  exists r t, r <> 0 /\ e = mkEntry (VReward r) t.
Proof.
  assert (forall now l r s,
            liveCache (publish now l r s).1 !! LIVE_KEYS.BLOCK_REWARD = Some e ->
            liveCache s !! LIVE_KEYS.BLOCK_REWARD = Some e \/
            exists r' t, r' <> 0 /\ e = mkEntry (VReward r') t) as Hpub.
  { intros now l r s. rewrite publish_reward_key.
    destruct (truthyOpt r) eqn:E; [|auto].
    intros [= <-]. right. exists (or0 r), now.
    split; [apply truthyOpt_or0, E|reflexivity]. }
  unfold updateManager, enter.
  destruct (updateManagerRunning st); [auto|].
  unfold after_fanout.
  destruct (f_blocks (c_fanout inp)) as [blocks|]; [|auto].
  destruct (f_tipHeight (c_fanout inp)) as [tip|]; [|auto].
  destruct (blocks !! 0%nat) as [b0|]; [|by_publish Hpub].
  destruct (truthyOpt _); [by_publish Hpub|].
  unfold after_reward.
  destruct (c_reward inp) as [txs|]; [destruct (coinbase_of txs)|];
    by_publish Hpub.
Qed.

(** C10, as stated, fails: a first cycle derives no reward (its reward
    fetch is rejected) and leaves the reward key unset; the next cycle,
    whose blocks fetch is rejected, and the one after it, to which
    [/blocks] answers with an empty list, do not ask for the coinbase
    although the key is still unset. *)
Lemma reward_refetch_counterexample :
  let st1 := final (updateManager (Sample.cycle_reward_fails Sample.t0) initial) in
  let second := updateManager (Sample.cycle_no_blocks (Sample.t0 + 10000)) st1 in
  let third := updateManager (Sample.cycle_empty (Sample.t0 + 20000)) (final second) in
  liveCache st1 !! LIVE_KEYS.BLOCK_REWARD = None /\
  (outcome second = Aborted /\ rewardRequest second = None) /\
  ((exists d, outcome third = Published d /\ Dashboard.blockReward d = 0) /\
   rewardRequest third = None /\
   liveCache (final third) !! LIVE_KEYS.BLOCK_REWARD = None).
Proof.
  vm_compute. split; [reflexivity|]. split; [split; reflexivity|].
  split; [eexists; split; reflexivity|]. split; reflexivity.
Qed.

(** C10, amended.  After every call of [updateManager] an entry found
    under the reward key was there before the call or holds a non-zero
    reward.  In a cycle that runs, gets past the fan-out and reads no
    truthy reward from the cache, if no reward is derived (no newest
    block, the reward fetch brings no coinbase) or the coinbase outputs
    sum to zero, the snapshot reports 0 and nothing is written under the
    reward key; and as long as nothing is written under it, every later
    cycle that gets past the fan-out with a non-empty block list asks
    for the coinbase of its newest block. *)
Theorem blockReward_key_only_nonzero (inp : CycleInput) (st : State) :
  let res := updateManager inp st in
  let key s := liveCache s !! LIVE_KEYS.BLOCK_REWARD in
  (forall e, key (final res) = Some e ->
     key st = Some e \/ exists r t, r <> 0 /\ e = mkEntry (VReward r) t) /\
  (forall blocks tip,
     updateManagerRunning st = false ->
     f_blocks (c_fanout inp) = Ok blocks ->
     f_tipHeight (c_fanout inp) = Ok tip ->
     truthyOpt (getBlockReward (c_fanoutTime inp) (liveCache st)) = false ->
     blocks = [] \/ reward_fetch_failed (c_reward inp) \/
     (exists txs tx, c_reward inp = Ok txs /\ coinbase_of txs = Some tx /\
                     sum_vout (Tx.vout tx) = 0) ->
     (exists d, outcome res = Published d /\ Dashboard.blockReward d = 0) /\
     reward_not_written (liveCache st) (liveCache (final res)) /\
     forall st' inp' b0 rest tip',
       updateManagerRunning st' = false ->
       reward_not_written (liveCache (final res)) (liveCache st') ->
       c_fanoutTime inp <= c_fanoutTime inp' ->
       f_blocks (c_fanout inp') = Ok (b0 :: rest) ->
       f_tipHeight (c_fanout inp') = Ok tip' ->
       rewardRequest (updateManager inp' st') = Some (reward_endpoint b0)).
Proof.
  intros res key.
  split; [intros e; apply reward_key_written_nonzero|].
  intros blocks tip Hidle Hb Ht Hfalsy Hnone.
  destruct (updateManager_fulfilled inp st blocks tip Hidle Hb Ht)
    as (now & r0 & st1 & req & Hres & Hlive & _ & Hcase).
  assert (truthyOpt r0 = false) as Hr0.
  { destruct Hcase as [(_ & _ & -> & _)|(b0 & rest & Hbl & _ & _ & _ & ->)];
      [exact Hfalsy|].
    destruct Hnone as [->|[Hfail|(txs & tx & Htxs & Hcb & Hsum)]];
      [discriminate| |].
    - unfold reward_fetch_failed in Hfail.
      destruct (c_reward inp) as [txs|]; [rewrite Hfail|]; reflexivity.
    - rewrite Htxs, Hcb, Hsum. reflexivity. }
  assert (reward_not_written (liveCache st) (liveCache (final res))) as Hkey.
  { subst res. rewrite Hres. cbn [final]. intros e.
    rewrite publish_reward_key, Hr0, Hlive. auto. }
  split; [|split; [exact Hkey|]].
  - subst res. rewrite Hres. cbn [outcome]. eexists. split; [reflexivity|].
    simpl. apply truthyOpt_false, Hr0.
  - intros st' inp' b0 rest tip' Hidle' Hkey' Hle Hb' Ht'.
    assert (truthyOpt (getBlockReward (c_fanoutTime inp') (liveCache st')) = false)
      as Hfalsy'.
    { apply (reward_not_written_falsy (c_fanoutTime inp) _ (liveCache st));
        [|exact Hle|exact Hfalsy].
      eapply reward_not_written_trans; eassumption. }
    destruct (updateManager_fulfilled inp' st' (b0 :: rest) tip' Hidle' Hb' Ht')
      as (now' & r' & st1' & req' & Hres' & _ & _ & Hcase').
    rewrite Hres'. cbn [rewardRequest].
    destruct Hcase' as [(_ & _ & _ & [Htrue|Hnil])|(b & rest' & Hbl & _ & -> & _)].
    + rewrite Hfalsy' in Htrue. discriminate.
    + discriminate.
    + injection Hbl as <- _. reflexivity.
Qed.

(** A first cycle whose reward fetch is rejected; the cycle ten seconds
    later asks for the coinbase again. *)
Lemma blockReward_key_only_nonzero_witness :
  let inp := Sample.cycle_reward_fails Sample.t0 in
  let res := updateManager inp initial in
  (updateManagerRunning initial = false /\
   truthyOpt (getBlockReward (c_fanoutTime inp) (liveCache initial)) = false) /\
  liveCache (final res) !! LIVE_KEYS.BLOCK_REWARD = None /\
  rewardRequest (updateManager (Sample.cycle_ok (Sample.t0 + 10000)) (final res))
    = Some "/block/00a1/txs/0".
Proof.
  intros inp res. split; [split; reflexivity|].
  destruct (blockReward_key_only_nonzero inp initial) as [_ H].
  destruct (H Sample.blocks 101 eq_refl eq_refl eq_refl eq_refl
              (or_intror (or_introl I))) as (_ & _ & Hnext).
  split; [reflexivity|].
  apply (Hnext (final res) (Sample.cycle_ok (Sample.t0 + 10000))
           Sample.newest [Sample.oldest] 101);
    [reflexivity|intros e He; exact He|vm_compute; discriminate
    |reflexivity|reflexivity].
Defined.

(** ** Freshness *)

(** [lastUpdateTime] moves only at the end of a cycle that publishes. *)
Lemma lastUpdateTime_moves inp st :
  lastUpdateTime (final (updateManager inp st)) <> lastUpdateTime st ->
  exists d, outcome (updateManager inp st) = Published d /\
            lastUpdateTime (final (updateManager inp st)) = Dashboard.updatedAt d.
Proof.
  unfold updateManager, enter.
  destruct (updateManagerRunning st); [intros []; reflexivity|].
  unfold after_fanout.
  destruct (f_blocks (c_fanout inp)) as [blocks|]; [|intros []; reflexivity].
  destruct (f_tipHeight (c_fanout inp)) as [tip|]; [|intros []; reflexivity].
  assert (forall now l r s,
            exists d, (publish now l r s).2 = Published d /\
                      lastUpdateTime (publish now l r s).1 = Dashboard.updatedAt d)
    as Hpub by (intros; eexists; split; reflexivity).
  destruct (blocks !! 0%nat) as [b0|]; [|intros _; apply Hpub].
  destruct (truthyOpt _); [intros _; apply Hpub|].
  unfold after_reward.
  destruct (c_reward inp) as [txs|]; [destruct (coinbase_of txs)|];
    intros _; apply Hpub.
Qed.

(** C5. [isCacheFresh()] at time [now] is true exactly when
    [now - lastUpdateTime < 30000]; the threshold is three times the
    refresh interval of 10000 ms, hence greater than it; a call of
    [updateManager] changes [lastUpdateTime] only when its cycle
    publishes, to the time of the publication, and the cache is fresh at
    that time. *)
Theorem isCacheFresh_iff (now : Z) (st : State) :
  (isCacheFresh now st = true <-> now - lastUpdateTime st < FRESH_THRESHOLD) /\
  FRESH_THRESHOLD = 30000 /\
  UPDATE_INTERVAL = 10000 /\
  FRESH_THRESHOLD = 3 * UPDATE_INTERVAL /\
  UPDATE_INTERVAL < FRESH_THRESHOLD /\
  (forall inp,
     lastUpdateTime (final (updateManager inp st)) <> lastUpdateTime st ->
     exists d, outcome (updateManager inp st) = Published d /\
               lastUpdateTime (final (updateManager inp st))
                 = Dashboard.updatedAt d) /\
  (forall inp d,
     outcome (updateManager inp st) = Published d ->
     lastUpdateTime (final (updateManager inp st)) = Dashboard.updatedAt d /\
     isCacheFresh (Dashboard.updatedAt d) (final (updateManager inp st)) = true).
Proof.
  split; [unfold isCacheFresh; apply Z.ltb_lt|].
  do 4 (split; [reflexivity|]).
  split; [intros inp; apply lastUpdateTime_moves|].
  intros inp d.
  assert (forall t l r s, (publish t l r s).2 = Published d ->
            lastUpdateTime (publish t l r s).1 = Dashboard.updatedAt d /\
            isCacheFresh (Dashboard.updatedAt d) (publish t l r s).1 = true)
    as Hpub.
  { intros t l r s [= <-]. split; [reflexivity|].
    unfold isCacheFresh. simpl. rewrite Z.sub_diag. reflexivity. }
  unfold updateManager, enter.
  destruct (updateManagerRunning st); [discriminate|].
  unfold after_fanout.
  destruct (f_blocks (c_fanout inp)) as [blocks|]; [|discriminate].
  destruct (f_tipHeight (c_fanout inp)) as [tip|]; [|discriminate].
  destruct (blocks !! 0%nat) as [b0|]; [|apply Hpub].
  destruct (truthyOpt _); [apply Hpub|].
  unfold after_reward.
  destruct (c_reward inp) as [txs|]; [destruct (coinbase_of txs)|];
    apply Hpub.
Qed.

(** ** The derived statistics *)

(** Read a snapshot off the [publish] that produced it. *)
Ltac published_in H :=
  match type of H with
  | context [publish ?t ?l ?r ?s] =>
      match goal with
      | Hpub : forall t l r s, _ -> exists r', _ = snapshot t l r' |- _ =>
          let r' := fresh "r" in
          destruct (Hpub t l r s H) as [r' ->]; eexists _, _; auto
      end
  end.

(** A published snapshot is assembled from the answers of the fan-out. *)
Lemma updateManager_published inp st d :
  outcome (updateManager inp st) = Published d ->
  exists blocks tip now r,
    f_blocks (c_fanout inp) = Ok blocks /\
    f_tipHeight (c_fanout inp) = Ok tip /\
    d = snapshot now
          (derive blocks tip
             (catch_default (f_mempool (c_fanout inp)) [])
             (catch_default (f_supply (c_fanout inp)) (Supply.mk (Some 0%Q))))
          r.
Proof.
  unfold updateManager, enter.
  destruct (updateManagerRunning st); [discriminate|].
  unfold after_fanout.
  destruct (f_blocks (c_fanout inp)) as [blocks|]; [|discriminate].
  destruct (f_tipHeight (c_fanout inp)) as [tip|]; [|discriminate].
  assert (forall t l r s, (publish t l r s).2 = Published d ->
            exists r', d = snapshot t l r') as Hpub.
  { intros t l r s [= <-]. exists r. reflexivity. }
  intros H. exists blocks, tip.
  destruct (blocks !! 0%nat) as [b0|].
  - destruct (truthyOpt _).
    + published_in H.
    + unfold after_reward in H.
      destruct (c_reward inp) as [txs|]; [destruct (coinbase_of txs)|];
        published_in H.
  - published_in H.
Qed.

Lemma Qeq_bool_inject_Z_0 a : Qeq_bool (inject_Z a) 0 = (a =? 0).
Proof. unfold Qeq_bool, inject_Z. simpl. rewrite Z.mul_1_r. reflexivity. Qed.

Lemma js_div_finite a b :
  b <> 0 -> js_div a (inject_Z b) = Finite (a / inject_Z b)%Q.
Proof.
  intros Hb. unfold js_div. rewrite Qeq_bool_inject_Z_0.
  destruct (Z.eqb_spec b 0); [contradiction|reflexivity].
Qed.

(** C6. In every cycle that publishes, the hashrate of the snapshot is
    the JavaScript quotient of (difficulty * 2^32) by the avgBlockTime of
    the same snapshot, where the difficulty is that of the newest block
    (0 when the block list is empty or the field is missing): a finite
    number equal to difficulty * 2^32 / avgBlockTime whenever
    avgBlockTime is not zero; with difficulty 1000 and avgBlockTime 120
    it is 1000 * 2^32 / 120. *)
Theorem hashrate_formula (inp : CycleInput) (st : State) (d : Dashboard.t) :
  outcome (updateManager inp st) = Published d ->
  exists blocks,
    f_blocks (c_fanout inp) = Ok blocks /\
    Dashboard.difficulty d = latestDifficulty blocks /\
    (forall newest rest x,
       blocks = newest :: rest -> Block.difficulty newest = Some x ->
       Dashboard.difficulty d = x) /\
    Dashboard.hashrate d
      = js_div (Dashboard.difficulty d * inject_Z (2 ^ 32))
               (inject_Z (Dashboard.avgBlockTime d)) /\
    (Dashboard.avgBlockTime d <> 0 ->
     exists q, Dashboard.hashrate d = Finite q /\
               (q == Dashboard.difficulty d * inject_Z (2 ^ 32)
                     / inject_Z (Dashboard.avgBlockTime d))%Q) /\
    ((Dashboard.difficulty d == 1000)%Q -> Dashboard.avgBlockTime d = 120 ->
     exists q, Dashboard.hashrate d = Finite q /\
               (q == 1000 * inject_Z (2 ^ 32) / 120)%Q).
Proof.
  intros H.
  destruct (updateManager_published inp st d H)
    as (blocks & tip & now & r & Hb & _ & Hd).
  assert (Dashboard.difficulty d = latestDifficulty blocks) as Hdiff
    by (rewrite Hd; reflexivity).
  assert (Dashboard.hashrate d
          = js_div (Dashboard.difficulty d * inject_Z (2 ^ 32))
                   (inject_Z (Dashboard.avgBlockTime d))) as Hrate
    by (rewrite Hd; reflexivity).
  clear Hd. exists blocks.
  split; [exact Hb|]. split; [exact Hdiff|]. split.
  { intros newest rest x -> Hx. rewrite Hdiff. unfold latestDifficulty.
    simpl. rewrite Hx. reflexivity. }
  split; [exact Hrate|]. rewrite Hrate. split.
  - intros Hnz. eexists. split; [apply js_div_finite, Hnz|reflexivity].
  - intros H1000 Ha. rewrite Ha. eexists. split.
    + apply js_div_finite. discriminate.
    + rewrite H1000. reflexivity.
Qed.

(** The sample cycle: difficulty 1000, two blocks 120 seconds apart. *)
Lemma hashrate_formula_witness :
  exists d q,
    outcome (updateManager (Sample.cycle_ok Sample.t0) initial) = Published d /\
    Dashboard.hashrate d = Finite q /\
    (q == 1000 * inject_Z (2 ^ 32) / 120)%Q.
Proof.
  eexists.
  destruct (hashrate_formula (Sample.cycle_ok Sample.t0) initial _ eq_refl)
    as (blocks & _ & _ & _ & _ & _ & Hex).
  destruct (Hex ltac:(reflexivity) eq_refl) as (q & Hq & Heq).
  exists q. split; [reflexivity|]. split; [exact Hq|exact Heq].
Defined.

Lemma Math_round_div_nearest a b :
  0 < b ->
  (2 * Math_round_div a b - 1) * b <= 2 * a < (2 * Math_round_div a b + 1) * b.
Proof.
  intros Hb. unfold Math_round_div.
  pose proof (Z.div_mod (2 * a + b) (2 * b) ltac:(lia)) as Hdm.
  pose proof (Z.mod_pos_bound (2 * a + b) (2 * b) ltac:(lia)) as Hm.
  nia.
Qed.

Lemma avgBlockTime_ends newest mid oldest :
  avgBlockTime (newest :: mid ++ [oldest])
  = Math_round_div (Block.timestamp newest - Block.timestamp oldest)
      (Z.of_nat (length (newest :: mid ++ [oldest])) - 1).
Proof.
  unfold avgBlockTime.
  assert (length (newest :: mid ++ [oldest]) = S (S (length mid))) as Hlen
    by (simpl; rewrite length_app; simpl; lia).
  rewrite Hlen.
  destruct (Z.ltb_spec 1 (Z.of_nat (S (S (length mid))))); [|lia].
  replace (S (S (length mid)) - 1)%nat with (S (length mid)) by lia.
  simpl lookup at 1.
  rewrite lookup_cons_ne_0 by lia. simpl Nat.pred.
  rewrite list_lookup_middle by reflexivity.
  reflexivity.
Qed.

Lemma avgBlockTime_short blocks :
  (length blocks < 2)%nat -> avgBlockTime blocks = DEFAULT_BLOCK_TIME.
Proof.
  intros Hlen. unfold avgBlockTime.
  destruct (Z.ltb_spec 1 (Z.of_nat (length blocks))); [lia|reflexivity].
Qed.

(** C7, as stated, fails: the fetch returns three blocks, the newest 7
    seconds after the oldest; the quotient 7 / (3 - 1) is 3.5 and the
    snapshot reports 4. *)
Lemma avgBlockTime_counterexample :
  exists d,
    outcome (updateManager cycle_uneven initial) = Published d /\
    f_blocks (c_fanout cycle_uneven) = Ok uneven_blocks /\
    (2 <= length uneven_blocks)%nat /\
    Dashboard.avgBlockTime d = 4 /\
    ~ (inject_Z (Dashboard.avgBlockTime d)
       == inject_Z (1704067207 - 1704067200)
          / inject_Z (Z.of_nat (length uneven_blocks) - 1))%Q.
Proof.
  eexists. split; [reflexivity|]. split; [reflexivity|].
  split; [simpl; lia|]. split; [reflexivity|].
  vm_compute. discriminate.
Qed.

(** C7, amended.  In every cycle that publishes, when the blocks fetch
    returned at least two blocks the avgBlockTime of the snapshot is
    [Math.round] of (timestamp of the first block - timestamp of the
    last block) / (count - 1), the integer nearest to that quotient with
    halves rounded up; when it returned fewer than two blocks it is
    120. *)
Theorem avgBlockTime_rounded (inp : CycleInput) (st : State) (d : Dashboard.t) :
  outcome (updateManager inp st) = Published d ->
  exists blocks,
    f_blocks (c_fanout inp) = Ok blocks /\
    (forall newest mid oldest,
       blocks = newest :: mid ++ [oldest] ->
       let span := Block.timestamp newest - Block.timestamp oldest in
       let n := Z.of_nat (length blocks) in
       Dashboard.avgBlockTime d = Math_round_div span (n - 1) /\
       (2 * Dashboard.avgBlockTime d - 1) * (n - 1) <= 2 * span
         < (2 * Dashboard.avgBlockTime d + 1) * (n - 1)) /\
    ((length blocks < 2)%nat ->
     Dashboard.avgBlockTime d = DEFAULT_BLOCK_TIME) /\
    DEFAULT_BLOCK_TIME = 120.
Proof.
  intros H.
  destruct (updateManager_published inp st d H)
    as (blocks & tip & now & r & Hb & _ & ->).
  exists blocks. split; [exact Hb|]. split; [|split; [|reflexivity]].
  - intros newest mid oldest -> span n. simpl Dashboard.avgBlockTime.
    unfold derive. simpl l_avgBlockTime. rewrite avgBlockTime_ends.
    fold span. fold n. split; [reflexivity|].
    apply Math_round_div_nearest.
    subst n. simpl. rewrite length_app. simpl. lia.
  - intros Hlen. simpl. apply avgBlockTime_short, Hlen.
Qed.

(** The three uneven blocks: the snapshot reports 4, the nearest integer
    to 3.5 with halves rounded up. *)
Lemma avgBlockTime_rounded_witness :
  exists d,
    outcome (updateManager cycle_uneven initial) = Published d /\
    Dashboard.avgBlockTime d = Math_round_div 7 2.
Proof.
  eexists. split; [reflexivity|].
  destruct (avgBlockTime_rounded cycle_uneven initial _ eq_refl)
    as (blocks & Hb & Hlong & _).
  injection Hb as <-.
  destruct (Hlong (Block.mk "00b2" 202 1704067207 (Some 1) (Some 300) (Some 1000%Q))
                  [Block.mk "00b1" 201 1704067203 (Some 1) (Some 300) (Some 1000%Q)]
                  (Block.mk "00b0" 200 1704067200 (Some 1) (Some 300) (Some 1000%Q))
                  eq_refl) as [Havg _].
  exact Havg.
Defined.

(** ** The statistics store *)

Lemma filter_none {A} (f : A -> bool) (l : list A) :
  (forall y, In y l -> f y = false) -> List.filter f l = [].
Proof.
  induction l as [|x tl IH]; simpl; intros H; [reflexivity|].
  rewrite (H x) by (left; reflexivity).
  apply IH. intros y Hy. apply H. right. exact Hy.
Qed.

Section History.

Implicit Types (r : HistRow.t) (tbl : list HistRow.t).

Lemma has_height_true h tbl :
  has_height h tbl = true <-> exists r, In r tbl /\ HistRow.height r = h.
Proof.
  unfold has_height. rewrite existsb_exists.
  split; intros (r & Hin & Hh); exists r; (split; [exact Hin|]);
    [apply Z.eqb_eq|apply Z.eqb_eq]; exact Hh.
Qed.

Lemma has_height_false h tbl :
  has_height h tbl = false -> ~ In h (map HistRow.height tbl).
Proof.
  intros Hf Hin. apply in_map_iff in Hin as (r & Hh & Hin).
  assert (has_height h tbl = true) by (apply has_height_true; eauto).
  congruence.
Qed.

Lemma insert_or_ignore_present r tbl :
  has_height (HistRow.height r) tbl = true -> insert_or_ignore r tbl = tbl.
Proof. unfold insert_or_ignore. intros ->. reflexivity. Qed.

Lemma insert_or_ignore_keeps r tbl old :
  In old tbl -> In old (insert_or_ignore r tbl).
Proof.
  unfold insert_or_ignore. destruct (has_height _ _); [auto|].
  intros H. apply in_or_app. left. exact H.
Qed.

Lemma insert_or_ignore_has r tbl :
  has_height (HistRow.height r) (insert_or_ignore r tbl) = true.
Proof.
  unfold insert_or_ignore.
  destruct (has_height (HistRow.height r) tbl) eqn:E; [exact E|].
  apply has_height_true. exists r. split; [|reflexivity].
  apply in_or_app. right. left. reflexivity.
Qed.

Lemma insert_or_ignore_unique r tbl :
  NoDup (map HistRow.height tbl) ->
  NoDup (map HistRow.height (insert_or_ignore r tbl)).
Proof.
  intros Hnd. unfold insert_or_ignore.
  destruct (has_height (HistRow.height r) tbl) eqn:E; [exact Hnd|].
  rewrite map_app. simpl. apply NoDup_app. split; [exact Hnd|]. split.
  - intros h Hin Hin'. apply list_elem_of_In in Hin.
    apply list_elem_of_In in Hin'. destruct Hin' as [<-|[]].
    exact (has_height_false _ _ E Hin).
  - apply NoDup_singleton.
Qed.

(** With the heights unique, the rows of one height are one row. *)
Lemma unique_height_one tbl old :
  NoDup (map HistRow.height tbl) -> In old tbl ->
  List.filter (fun x => HistRow.height x =? HistRow.height old) tbl = [old].
Proof.
  induction tbl as [|x tl IH]; simpl; [intros _ []|].
  intros Hnd Hin. apply NoDup_cons in Hnd as [Hx Hnd].
  destruct Hin as [->|Hin].
  - rewrite Z.eqb_refl. f_equal.
    apply filter_none. intros y Hy.
    destruct (Z.eqb_spec (HistRow.height y) (HistRow.height old)) as [Heq|];
      [|reflexivity].
    exfalso. apply Hx. rewrite <- Heq. apply list_elem_of_In.
    apply in_map, Hy.
  - destruct (Z.eqb_spec (HistRow.height x) (HistRow.height old)) as [Heq|].
    + exfalso. apply Hx. rewrite Heq. apply list_elem_of_In.
      apply in_map, Hin.
    + apply IH; assumption.
Qed.

Lemma insertMany_keeps blocks tbl old :
  In old tbl -> In old (insertMany blocks tbl).
Proof.
  unfold insertMany. revert tbl.
  induction blocks as [|b bs IH]; simpl; intros tbl Hin; [exact Hin|].
  apply IH, insert_or_ignore_keeps, Hin.
Qed.

Lemma insertMany_unique blocks tbl :
  NoDup (map HistRow.height tbl) ->
  NoDup (map HistRow.height (insertMany blocks tbl)).
Proof.
  unfold insertMany. revert tbl.
  induction blocks as [|b bs IH]; simpl; intros tbl Hnd; [exact Hnd|].
  apply IH, insert_or_ignore_unique, Hnd.
Qed.

Lemma insertMany_has_kept blocks tbl h :
  has_height h tbl = true -> has_height h (insertMany blocks tbl) = true.
Proof.
  intros H. apply has_height_true in H as (r & Hin & Hh).
  apply has_height_true. exists r. split; [|exact Hh].
  apply insertMany_keeps, Hin.
Qed.

(** A batch whose heights are all recorded changes nothing. *)
Lemma insertMany_present blocks tbl :
  (forall b, In b blocks -> has_height (Block.height b) tbl = true) ->
  insertMany blocks tbl = tbl.
Proof.
  unfold insertMany.
  induction blocks as [|b bs IH]; simpl; intros Hall; [reflexivity|].
  rewrite insert_or_ignore_present by (apply (Hall b); left; reflexivity).
  apply IH. intros b' Hb'. apply Hall. right. exact Hb'.
Qed.

Lemma insertMany_has blocks tbl b :
  In b blocks -> has_height (Block.height b) (insertMany blocks tbl) = true.
Proof.
  unfold insertMany. revert tbl.
  induction blocks as [|b' bs IH]; simpl; intros tbl; [intros []|].
  intros [->|Hin]; [|apply IH, Hin].
  apply (insertMany_has_kept bs). apply (insert_or_ignore_has (history_row b)).
Qed.

End History.

(** C8. On a table whose heights are unique (the primary key), persisting
    a record leaves the heights unique and exactly one row of that
    height; when a row of that height was already stored the table is
    unchanged, so the stored row keeps every field; persisting the record
    a second time changes nothing; and the same holds for a batch of
    blocks: every stored row is kept as it is and persisting the batch
    again changes nothing. *)
Theorem history_insert_idempotent (r : HistRow.t) (tbl : list HistRow.t) :
  NoDup (map HistRow.height tbl) ->
  let tbl1 := insert_or_ignore r tbl in
  let same_height x := HistRow.height x =? HistRow.height r in
  NoDup (map HistRow.height tbl1) /\
  length (List.filter same_height tbl1) = 1%nat /\
  insert_or_ignore r tbl1 = tbl1 /\
  (forall old, In old tbl -> HistRow.height old = HistRow.height r ->
     tbl1 = tbl /\ List.filter same_height tbl1 = [old]) /\
  (forall blocks,
     NoDup (map HistRow.height (insertMany blocks tbl)) /\
     (forall old, In old tbl -> In old (insertMany blocks tbl)) /\
     insertMany blocks (insertMany blocks tbl) = insertMany blocks tbl).
Proof.
  intros Hnd tbl1 same_height.
  pose proof (insert_or_ignore_unique r tbl Hnd) as Hnd1. fold tbl1 in Hnd1.
  pose proof (insert_or_ignore_has r tbl) as Hhas. fold tbl1 in Hhas.
  split; [exact Hnd1|]. split; [|split; [|split]].
  - apply has_height_true in Hhas as (x & Hin & Hh).
    subst same_height. cbn beta. rewrite <- Hh.
    rewrite (unique_height_one tbl1 x Hnd1 Hin). reflexivity.
  - apply insert_or_ignore_present, Hhas.
  - intros old Hin Hh.
    assert (tbl1 = tbl) as Heq.
    { apply insert_or_ignore_present, has_height_true. eauto. }
    split; [exact Heq|]. rewrite Heq. subst same_height. cbn beta.
    rewrite <- Hh. apply unique_height_one; assumption.
  - intros blocks. split; [apply insertMany_unique, Hnd|].
    split; [intros old; apply insertMany_keeps|].
    apply insertMany_present. intros b Hb. apply insertMany_has, Hb.
Qed.

(** The row of block 100 persisted twice, the second time with other
    field values under the same height. *)
Lemma history_insert_idempotent_witness :
  let row := history_row Sample.oldest in
  let other := HistRow.mk 100 "ffff" 0 9 9 0 (IsoDate.mk 1970 1 1) in
  NoDup (map HistRow.height [row]) /\
  insert_or_ignore other [row] = [row].
Proof.
  intros row other.
  assert (NoDup (map HistRow.height [row])) as Hnd
    by (apply NoDup_singleton).
  split; [exact Hnd|].
  destruct (history_insert_idempotent other [row] Hnd)
    as (_ & _ & _ & Hold & _).
  apply (Hold row); [left; reflexivity|reflexivity].
Defined.

Section Daily.

Lemma IsoDate_eqb_eq a b : IsoDate.eqb a b = true <-> a = b.
Proof.
  unfold IsoDate.eqb. destruct a as [y m d], b as [y' m' d']; simpl.
  rewrite !andb_true_iff, !Z.eqb_eq. split.
  - intros [[-> ->] ->]. reflexivity.
  - intros [= -> -> ->]. auto.
Qed.

Lemma IsoDate_eqb_refl a : IsoDate.eqb a a = true.
Proof. apply IsoDate_eqb_eq. reflexivity. Qed.

Lemma IsoDate_eqb_neq a b : a <> b -> IsoDate.eqb a b = false.
Proof.
  intros Hne. destruct (IsoDate.eqb a b) eqn:E; [|reflexivity].
  apply IsoDate_eqb_eq in E. contradiction.
Qed.

Lemma or0_SUM xs : or0 (SUM xs) = total xs.
Proof. destruct xs; reflexivity. Qed.

Lemma or0Q_AVG xs :
  xs <> [] ->
  (or0Q (AVG xs) == inject_Z (total xs) / inject_Z (COUNT xs))%Q.
Proof. destruct xs; [contradiction|]. intros _. simpl or0Q. apply Qred_correct. Qed.

Lemma COUNT_map {A B} (f : A -> B) (l : list A) : COUNT (map f l) = COUNT l.
Proof. unfold COUNT. rewrite length_map. reflexivity. Qed.

Lemma filter_filter_implied {A} (p q : A -> bool) (l : list A) :
  (forall x, p x = true -> q x = true) ->
  List.filter p (List.filter q l) = List.filter p l.
Proof.
  intros Himp. induction l as [|x tl IH]; simpl; [reflexivity|].
  destruct (q x) eqn:Eq; simpl.
  - rewrite IH. reflexivity.
  - destruct (p x) eqn:Ep; [|exact IH].
    rewrite (Himp x Ep) in Eq. discriminate.
Qed.

(** [INSERT OR REPLACE] leaves one record for its date... *)
Lemma insert_or_replace_same d tbl :
  daily_of_date (DailyRow.date d) (insert_or_replace d tbl) = [d].
Proof.
  unfold daily_of_date, insert_or_replace. rewrite List.filter_app. simpl.
  rewrite IsoDate_eqb_refl. rewrite filter_none; [reflexivity|].
  intros y Hy. apply List.filter_In in Hy as [_ Hy].
  destruct (IsoDate.eqb _ _); [discriminate|reflexivity].
Qed.

(** ... and the records of the other dates as they were. *)
Lemma insert_or_replace_other d tbl date :
  date <> DailyRow.date d ->
  daily_of_date date (insert_or_replace d tbl) = daily_of_date date tbl.
Proof.
  intros Hne. unfold daily_of_date, insert_or_replace.
  rewrite List.filter_app. simpl.
  rewrite (IsoDate_eqb_neq (DailyRow.date d) date) by congruence.
  rewrite app_nil_r. apply filter_filter_implied.
  intros x Hx. apply IsoDate_eqb_eq in Hx.
  rewrite IsoDate_eqb_neq by congruence. reflexivity.
Qed.

End Daily.

(** C4, as stated, fails.  The two sample blocks are persisted on the
    day they were mined, 2024-01-01, and the daily record of that day
    counts them.  Five seconds after midnight the next cycle persists a
    block mined five seconds before midnight: the batch touches
    2024-01-01, three history rows now carry that date, and its daily
    record still counts two blocks, because only the record of the
    current day is recomputed. *)
Lemma daily_rollup_counterexample :
  let D := IsoDate.mk 2024 1 1 in
  let s1 := saveBlocksToStats Sample.t0 Sample.blocks (Some empty_store) in
  exists s2,
    saveBlocksToStats next_day [late_block] s1 = Some s2 /\
    IsoDate.of_timestamp (Block.timestamp late_block) = D /\
    COUNT (rows_of_date D (blocks_history s2)) = 3 /\
    exists d, daily_of_date D (daily_stats s2) = [d] /\
              DailyRow.block_count d = 2 /\
              DailyRow.total_size d = 3000.
Proof.
  vm_compute. eexists. split; [reflexivity|]. split; [reflexivity|].
  split; [reflexivity|]. eexists. split; [reflexivity|]. split; reflexivity.
Qed.

(** C4, amended.  After the persistence step has run, at time [now], on
    a non-empty batch with the database open, the history holds the
    batch (heights already recorded are skipped); if some history row
    carries the current UTC date, the daily record of that date is a
    single record holding the aggregate over all history rows of that
    date: block_count their number, tx_count and total_size the sums,
    avg_block_size the quotient of total_size by block_count; if no row
    carries it the daily records are unchanged; and the daily records of
    every other date are as they were. *)
Theorem daily_rollup_today (now : Z) (blocks : list Block.t) (s : Store) :
  blocks <> [] ->
  exists s',
    saveBlocksToStats now blocks (Some s) = Some s' /\
    blocks_history s' = insertMany blocks (blocks_history s) /\
    let today := IsoDate.of_timestamp (now / 1000) in
    let rows := rows_of_date today (blocks_history s') in
    (rows <> [] ->
     exists d,
       daily_of_date today (daily_stats s') = [d] /\
       DailyRow.block_count d = COUNT rows /\
       DailyRow.tx_count d = total (map HistRow.tx_count rows) /\
       DailyRow.total_size d = total (map HistRow.size rows) /\
       (DailyRow.avg_block_size d
        == inject_Z (DailyRow.total_size d) / inject_Z (DailyRow.block_count d))%Q /\
       DailyRow.updated_at d = now / 1000) /\
    (rows = [] -> daily_stats s' = daily_stats s) /\
    (forall date, date <> today ->
       daily_of_date date (daily_stats s') = daily_of_date date (daily_stats s)).
Proof.
  intros Hne. destruct blocks as [|b bs]; [contradiction|]. clear Hne.
  unfold saveBlocksToStats, updateDailyStats. cbn [blocks_history daily_stats].
  set (hist := insertMany (b :: bs) (blocks_history s)).
  set (today := IsoDate.of_timestamp (now / 1000)).
  set (rows := rows_of_date today hist).
  destruct (Z.ltb_spec 0 (COUNT rows)) as [Hpos|Hzero].
  - eexists. split; [reflexivity|]. cbn [blocks_history daily_stats].
    split; [reflexivity|]. fold rows.
    assert (rows <> []) as Hrows.
    { intros E. rewrite E in Hpos. unfold COUNT in Hpos. simpl in Hpos. lia. }
    split; [|split].
    + intros _. eexists. split; [apply (insert_or_replace_same
        (DailyRow.mk today _ _ _ _ _))|].
      cbn [DailyRow.block_count DailyRow.tx_count DailyRow.total_size
           DailyRow.avg_block_size DailyRow.updated_at].
      split; [reflexivity|]. split; [apply or0_SUM|].
      split; [apply or0_SUM|]. split; [|reflexivity].
      rewrite or0_SUM, or0Q_AVG, COUNT_map; [reflexivity|].
      destruct rows; [contradiction|discriminate].
    + intros E. contradiction.
    + intros date Hd. apply insert_or_replace_other. exact Hd.
  - eexists. split; [reflexivity|]. cbn [blocks_history daily_stats].
    split; [reflexivity|]. fold rows. split; [|split].
    + intros Hrows. exfalso. destruct rows; [contradiction|].
      unfold COUNT in Hzero. simpl in Hzero. lia.
    + reflexivity.
    + reflexivity.
Qed.

(** The two sample blocks persisted on the day they were mined: sizes
    2000 and 1000, transaction counts 3 and 5. *)
Lemma daily_rollup_today_witness :
  Sample.blocks <> [] /\
  exists s' d,
    saveBlocksToStats Sample.t0 Sample.blocks (Some empty_store) = Some s' /\
    daily_of_date (IsoDate.mk 2024 1 1) (daily_stats s') = [d] /\
    DailyRow.block_count d = 2 /\ DailyRow.tx_count d = 8 /\
    DailyRow.total_size d = 3000 /\ (DailyRow.avg_block_size d == 1500)%Q.
Proof.
  assert (Sample.blocks <> []) as Hne by discriminate.
  split; [exact Hne|].
  destruct (daily_rollup_today Sample.t0 Sample.blocks empty_store Hne)
    as (s' & Hs & Hh & Htoday & _).
  exists s'.
  destruct Htoday as (d & Hd & Hc & Ht & Hz & Ha & _).
  { rewrite Hh. vm_compute. discriminate. }
  exists d. split; [exact Hs|]. split; [exact Hd|].
  assert (DailyRow.block_count d = 2) as Hc2 by (rewrite Hc, Hh; reflexivity).
  assert (DailyRow.total_size d = 3000) as Hz2 by (rewrite Hz, Hh; reflexivity).
  split; [exact Hc2|]. split; [rewrite Ht, Hh; reflexivity|].
  split; [exact Hz2|]. rewrite Ha, Hc2, Hz2. reflexivity.
Defined.

(** ** Calendar dates follow the days *)

(** The epoch, a leap day, the last day of a century and the first day
    of 2024. *)
Example of_timestamp_samples :
  IsoDate.of_timestamp 0 = IsoDate.mk 1970 1 1 /\
  IsoDate.of_timestamp 86399 = IsoDate.mk 1970 1 1 /\
  IsoDate.of_timestamp 951782400 = IsoDate.mk 2000 2 29 /\
  IsoDate.of_timestamp 946684799 = IsoDate.mk 1999 12 31 /\
  IsoDate.of_timestamp 1704067200 = IsoDate.mk 2024 1 1 /\
  IsoDate.of_timestamp (-1) = IsoDate.mk 1969 12 31.
Proof. vm_compute. repeat split. Qed.

Section DateOrder.

Lemma ltb_spec a b :
  IsoDate.ltb a b = true <->
  IsoDate.year a < IsoDate.year b \/
  (IsoDate.year a = IsoDate.year b /\
   (IsoDate.month a < IsoDate.month b \/
    (IsoDate.month a = IsoDate.month b /\ IsoDate.day a < IsoDate.day b))).
Proof.
  unfold IsoDate.ltb.
  rewrite !orb_true_iff, !andb_true_iff, !orb_true_iff, !andb_true_iff,
    !Z.ltb_lt, !Z.eqb_eq.
  reflexivity.
Qed.

Lemma ltb_trans a b c :
  IsoDate.ltb a b = true -> IsoDate.ltb b c = true -> IsoDate.ltb a c = true.
Proof. rewrite !ltb_spec. lia. Qed.

Lemma ltb_asym a b : IsoDate.ltb a b = true -> IsoDate.ltb b a = false.
Proof.
  intros H. destruct (IsoDate.ltb b a) eqn:E; [|reflexivity].
  apply ltb_spec in H. apply ltb_spec in E. lia.
Qed.

Lemma ltb_irrefl a : IsoDate.ltb a a = false.
Proof.
  destruct (IsoDate.ltb a a) eqn:E; [|reflexivity].
  apply ltb_spec in E. lia.
Qed.

Lemma in_era_ltb era a b :
  IsoDate.ltb (in_era era a) (in_era era b) = IsoDate.ltb a b.
Proof.
  apply eq_true_iff_eq. rewrite !ltb_spec. unfold in_era. simpl. lia.
Qed.

Lemma increasing_from_spec n doe :
  increasing_from n doe = true ->
  forall i, doe <= i < doe + Z.of_nat n ->
    IsoDate.ltb (IsoDate.of_doe i) (IsoDate.of_doe (i + 1)) = true.
Proof.
  revert doe. induction n as [|k IH]; intros doe Hc i Hi; [lia|].
  simpl in Hc. apply andb_true_iff in Hc as [Hhd Htl].
  destruct (Z.eq_dec i doe) as [->|Hne]; [exact Hhd|].
  apply (IH (doe + 1) Htl). lia.
Qed.

(** Every day of the 400-year era is dated before the next day. *)
Lemma era_increasing :
  increasing_from (Z.to_nat 146096) 0 = true.
Proof. vm_compute. reflexivity. Qed.

Lemma of_doe_next i :
  0 <= i < 146096 ->
  IsoDate.ltb (IsoDate.of_doe i) (IsoDate.of_doe (i + 1)) = true.
Proof.
  intros Hi. apply (increasing_from_spec _ _ era_increasing). lia.
Qed.

Lemma of_doe_lt i j :
  0 <= i -> i < j -> j < 146097 ->
  IsoDate.ltb (IsoDate.of_doe i) (IsoDate.of_doe j) = true.
Proof.
  intros Hi Hij Hj.
  assert (exists n, j = i + 1 + Z.of_nat n) as [n ->]
    by (exists (Z.to_nat (j - i - 1)); lia).
  clear Hij. induction n as [|n IH].
  - rewrite Z.add_0_r. apply of_doe_next. lia.
  - apply (ltb_trans _ (IsoDate.of_doe (i + 1 + Z.of_nat n))).
    + apply IH. lia.
    + replace (i + 1 + Z.of_nat (S n)) with (i + 1 + Z.of_nat n + 1) by lia.
      apply of_doe_next. lia.
Qed.

(** The last day of an era is dated before the first of the next. *)
Lemma era_boundary e e' :
  e < e' ->
  IsoDate.ltb (in_era e (IsoDate.of_doe 146096)) (in_era e' (IsoDate.of_doe 0))
  = true.
Proof.
  intros He.
  replace (IsoDate.of_doe 146096) with (IsoDate.mk 400 2 29)
    by (vm_compute; reflexivity).
  replace (IsoDate.of_doe 0) with (IsoDate.mk 0 3 1)
    by (vm_compute; reflexivity).
  apply ltb_spec. unfold in_era. simpl. lia.
Qed.

Lemma of_days_in_era days :
  IsoDate.of_days days
  = in_era ((days + 719468) / 146097)
      (IsoDate.of_doe ((days + 719468) mod 146097)).
Proof. reflexivity. Qed.

(** An earlier day has an earlier date. *)
Lemma of_days_lt d1 d2 :
  d1 < d2 -> IsoDate.ltb (IsoDate.of_days d1) (IsoDate.of_days d2) = true.
Proof.
  intros Hlt. rewrite !of_days_in_era.
  set (z1 := d1 + 719468). set (z2 := d2 + 719468).
  assert (z1 < z2) as Hz by (subst z1 z2; lia).
  pose proof (Z.div_mod z1 146097 ltac:(lia)) as E1.
  pose proof (Z.div_mod z2 146097 ltac:(lia)) as E2.
  pose proof (Z.mod_pos_bound z1 146097 ltac:(lia)) as B1.
  pose proof (Z.mod_pos_bound z2 146097 ltac:(lia)) as B2.
  set (e1 := z1 / 146097) in *. set (e2 := z2 / 146097) in *.
  set (r1 := z1 mod 146097) in *. set (r2 := z2 mod 146097) in *.
  destruct (Z.lt_trichotomy e1 e2) as [He|[He|He]]; [| |lia].
  - assert (IsoDate.ltb (in_era e1 (IsoDate.of_doe r1))
                        (in_era e2 (IsoDate.of_doe 0)) = true) as Hleft.
    { destruct (Z.eq_dec r1 146096) as [->|Hr1]; [apply era_boundary, He|].
      apply (ltb_trans _ (in_era e1 (IsoDate.of_doe 146096)));
        [|apply era_boundary, He].
      rewrite in_era_ltb. apply of_doe_lt; lia. }
    destruct (Z.eq_dec r2 0) as [->|Hr2]; [exact Hleft|].
    apply (ltb_trans _ _ _ Hleft).
    rewrite in_era_ltb. apply of_doe_lt; lia.
  - rewrite He, in_era_ltb. apply of_doe_lt; lia.
Qed.

Lemma of_days_ltb d1 d2 :
  IsoDate.ltb (IsoDate.of_days d1) (IsoDate.of_days d2) = (d1 <? d2).
Proof.
  destruct (Z.ltb_spec d1 d2) as [Hlt|Hge]; [apply of_days_lt, Hlt|].
  destruct (Z.eq_dec d1 d2) as [->|Hne]; [apply ltb_irrefl|].
  apply ltb_asym, of_days_lt. lia.
Qed.

(** The dates of two instants compare as their days do. *)
Lemma of_timestamp_ltb t1 t2 :
  IsoDate.ltb (IsoDate.of_timestamp t1) (IsoDate.of_timestamp t2)
  = (t1 / 86400 <? t2 / 86400).
Proof. apply of_days_ltb. Qed.

End DateOrder.

(** ** Retention *)

(** The persistence step removes no history row. *)
Lemma saveBlocksToStats_keeps now blocks s0 s1 :
  saveBlocksToStats now blocks (Some s0) = Some s1 ->
  forall r, In r (blocks_history s0) -> In r (blocks_history s1).
Proof.
  unfold saveBlocksToStats. intros Hsave r Hin.
  destruct blocks as [|b bs]; [injection Hsave as <-; exact Hin|].
  injection Hsave as <-. unfold updateDailyStats.
  destruct (0 <? _); cbn [blocks_history];
    apply (insertMany_keeps (b :: bs)), Hin.
Qed.

(** What [initDatabase] leaves when a statement throws after the file
    was opened: it answers [false], [db] stays assigned, and the rows
    are those of the file, but for the history rows before the cutoff
    when it is the second [DELETE] that throws. *)
Lemma initDatabase_throws (now : Z) (s : Store) (step : InitStep)
    (st : State) :
  exists s',
    initDatabase now (Some s) (Some step) st
    = (false, mkState (updateManagerRunning st) (lastUpdateTime st)
                (liveCache st) (immutableCache st) (Some s')) /\
    daily_stats s' = daily_stats s /\
    (step <> DeleteDaily -> s' = s) /\
    (step = DeleteDaily -> s' = sweep_history now s).
Proof.
  destruct step; cbn [initDatabase]; eexists;
    (split; [reflexivity|]); (split; [reflexivity|]); split; intros H;
    solve [reflexivity | discriminate H | exfalso; apply H; reflexivity].
Qed.

(** C9. [initDatabase] on a file that opens answers [true] exactly when
    none of its statements throws, and then, run at time [now], the
    store it leaves holds exactly the history rows of the file whose
    timestamp is not before the cutoff, [now] in whole seconds minus 90
    days, and exactly the daily records whose date is not before the
    calendar date of the cutoff, that is, for a record dated by an
    instant, whose day is not before the day of the cutoff; a history
    row timed 91 days before [now] is gone and one timed 89 days before
    [now] is kept.  The persistence step of the cycles removes no
    history row: the sweep happens at initialisation only. *)
Theorem initDatabase_retention (now : Z) (s : Store) (st : State) :
  let cutoff := now / 1000 - 90 * 24 * 60 * 60 in
  (forall disk throws,
     (initDatabase now disk throws st).1 = true ->
     disk <> None /\ throws = None) /\
  exists s',
    initDatabase now (Some s) None st
    = (true, mkState (updateManagerRunning st) (lastUpdateTime st)
               (liveCache st) (immutableCache st) (Some s')) /\
    (forall r, In r (blocks_history s') <->
               In r (blocks_history s) /\ cutoff <= HistRow.timestamp r) /\
    (forall d, In d (daily_stats s') <->
               In d (daily_stats s) /\
               IsoDate.ltb (DailyRow.date d) (IsoDate.of_timestamp cutoff)
               = false) /\
    (forall d ts, DailyRow.date d = IsoDate.of_timestamp ts ->
       (In d (daily_stats s') <->
        In d (daily_stats s) /\ cutoff / 86400 <= ts / 86400)) /\
    (forall r, HistRow.timestamp r = now / 1000 - 91 * 86400 ->
               ~ In r (blocks_history s')) /\
    (forall r, In r (blocks_history s) ->
               HistRow.timestamp r = now / 1000 - 89 * 86400 ->
               In r (blocks_history s')) /\
    (forall now' blocks s1,
       saveBlocksToStats now' blocks (Some s') = Some s1 ->
       forall r, In r (blocks_history s') -> In r (blocks_history s1)).
Proof.
  intros cutoff. split.
  { intros [s0|] [[]|]; cbn [initDatabase fst]; intros H;
      try discriminate H; split; [discriminate|reflexivity]. }
  exists (sweep now s). split; [reflexivity|].
  assert (ninetyDaysAgo now = cutoff) as Hcut by reflexivity.
  assert (forall r, In r (blocks_history (sweep now s)) <->
                    In r (blocks_history s) /\ cutoff <= HistRow.timestamp r)
    as Hhist.
  { intros r. unfold sweep, sweep_daily, sweep_history.
    cbn [blocks_history]. rewrite List.filter_In, Hcut.
    destruct (Z.ltb_spec (HistRow.timestamp r) cutoff); simpl; split;
      intros [? ?]; try discriminate; try lia; auto. }
  assert (forall d, In d (daily_stats (sweep now s)) <->
                    In d (daily_stats s) /\
                    IsoDate.ltb (DailyRow.date d) (IsoDate.of_timestamp cutoff)
                    = false) as Hdaily.
  { intros d. unfold sweep, sweep_daily, sweep_history.
    cbn [daily_stats]. rewrite List.filter_In, Hcut.
    rewrite negb_true_iff. reflexivity. }
  split; [exact Hhist|]. split; [exact Hdaily|]. split; [|split; [|split]].
  - intros d ts Hd. rewrite Hdaily, Hd, of_timestamp_ltb, Z.ltb_ge.
    reflexivity.
  - intros r Hr Hin. apply Hhist in Hin as [_ Hin]. lia.
  - intros r Hin Hr. apply Hhist. split; [exact Hin|lia].
  - intros now' blocks s1 Hsave r Hin.
    exact (saveBlocksToStats_keeps now' blocks _ s1 Hsave r Hin).
Qed.

(** The database file with rows 91 and 89 days old, opened at
    [Sample.t0] with no statement throwing. *)
Lemma initDatabase_retention_witness :
  exists s',
    db (initDatabase Sample.t0 (Some aged_store) None initial).2 = Some s' /\
    blocks_history s' = [aged_row 89] /\
    daily_stats s' = [aged_daily 89].
Proof.
  destruct (initDatabase_retention Sample.t0 aged_store initial)
    as (_ & s' & Hinit & _).
  exists s'. rewrite Hinit. split; [reflexivity|].
  injection Hinit as <-. vm_compute. split; reflexivity.
Defined.

(** * Further properties of the code *)

(** ** Reading the daily statistics *)

Section DailyQueries.

Implicit Types (d x : DailyRow.t) (l tbl : list DailyRow.t).

Lemma insert_desc_perm d l : insert_desc d l ≡ₚ d :: l.
Proof.
  induction l as [|x tl IH]; simpl; [reflexivity|].
  destruct (IsoDate.ltb _ _); [reflexivity|].
  rewrite IH. apply Permutation_swap.
Qed.

Lemma order_by_date_desc_perm tbl : order_by_date_desc tbl ≡ₚ tbl.
Proof.
  induction tbl as [|d tl IH]; simpl; [reflexivity|].
  rewrite insert_desc_perm, IH. reflexivity.
Qed.

Lemma insert_desc_sorted d l :
  StronglySorted not_before l -> StronglySorted not_before (insert_desc d l).
Proof.
  induction l as [|x tl IH]; simpl; intros Hs.
  - repeat constructor.
  - apply StronglySorted_inv in Hs as [Hs Hx].
    destruct (IsoDate.ltb (DailyRow.date x) (DailyRow.date d)) eqn:E.
    + constructor; [constructor; assumption|].
      constructor; [apply ltb_asym, E|].
      eapply Forall_impl; [exact Hx|]. intros y Hxy. unfold not_before in *.
      destruct (IsoDate.ltb (DailyRow.date d) (DailyRow.date y)) eqn:Edy;
        [|reflexivity].
      rewrite (ltb_trans _ _ _ E Edy) in Hxy. discriminate.
    + constructor; [apply IH, Hs|].
      rewrite insert_desc_perm. constructor; assumption.
Qed.

Lemma order_by_date_desc_sorted tbl :
  StronglySorted not_before (order_by_date_desc tbl).
Proof.
  induction tbl as [|d tl IH]; simpl; [constructor|].
  apply insert_desc_sorted, IH.
Qed.

Lemma LIMIT_split {A} (n : Z) (rows : list A) :
  exists rest, rows = LIMIT n rows ++ rest /\
               (n < 0 -> rest = []) /\
               (0 <= n -> length (LIMIT n rows)
                          = Nat.min (Z.to_nat n) (length rows)).
Proof.
  unfold LIMIT. destruct (Z.ltb_spec n 0).
  - exists []. rewrite app_nil_r. split; [reflexivity|]. split; [reflexivity|lia].
  - exists (drop (Z.to_nat n) rows). rewrite take_drop.
    split; [reflexivity|]. split; [lia|]. intros _. apply length_take.
Qed.

Lemma date_trichotomy (a b : IsoDate.t) :
  a = b \/ IsoDate.ltb a b = true \/ IsoDate.ltb b a = true.
Proof.
  rewrite !ltb_spec. destruct a as [y m d], b as [y' m' d']; simpl.
  destruct (Z.eq_dec y y') as [->|]; [|right; lia].
  destruct (Z.eq_dec m m') as [->|]; [|right; lia].
  destruct (Z.eq_dec d d') as [->|]; [left; reflexivity|right; lia].
Qed.

End DailyQueries.

Lemma StronglySorted_rev {A} (R : A -> A -> Prop) (l : list A) :
  StronglySorted R l -> StronglySorted (fun a b => R b a) (rev l).
Proof.
  induction 1 as [|a l Hs IH Ha]; simpl; [constructor|].
  apply StronglySorted_app_2; [|exact IH|repeat constructor].
  intros x1 x2 Hx1 Hx2. apply list_elem_of_In in Hx1, Hx2.
  destruct Hx2 as [<-|[]]. apply in_rev in Hx1.
  rewrite List.Forall_forall in Ha. apply Ha, Hx1.
Qed.

(** Rows of different dates kept latest first are strictly ordered. *)
Lemma sorted_desc_strict (l : list DailyRow.t) :
  StronglySorted not_before l -> NoDup (map DailyRow.date l) ->
  StronglySorted (fun a b => dated_before b a) l.
Proof.
  induction 1 as [|a l Hs IH Ha]; simpl; intros Hnd; [constructor|].
  apply NoDup_cons in Hnd as [Hna Hnd].
  constructor; [apply IH, Hnd|].
  rewrite List.Forall_forall in *. intros x Hx.
  destruct (date_trichotomy (DailyRow.date a) (DailyRow.date x))
    as [Heq|[Hlt|Hgt]].
  - exfalso. apply Hna. rewrite Heq. apply list_elem_of_In, in_map, Hx.
  - specialize (Ha x Hx). unfold not_before in Ha. congruence.
  - exact Hgt.
Qed.

(** X1. With one record per date, [getDailyStats(days)] answers records
    of the table, each once, oldest first, and they are the most recent
    ones: a record left out is dated before every record answered; for
    [days >= 0] there are [days] of them, or all when the table holds
    fewer. *)
Theorem getDailyStats_most_recent (days : Z) (s : Store) :
  NoDup (map DailyRow.date (daily_stats s)) ->
  let res := getDailyStats days (Some s) in
  (forall d, In d res -> In d (daily_stats s)) /\
  NoDup res /\
  StronglySorted dated_before res /\
  (forall d x, In d (daily_stats s) -> ~ In d res -> In x res ->
               dated_before d x) /\
  (0 <= days ->
   length res = Nat.min (Z.to_nat days) (length (daily_stats s))).
Proof.
  intros Hnd res. subst res. unfold getDailyStats.
  set (sorted := order_by_date_desc (daily_stats s)).
  pose proof (order_by_date_desc_perm (daily_stats s)) as Hperm. fold sorted in Hperm.
  destruct (LIMIT_split days sorted) as (rest & Hsplit & _ & Hlen).
  set (lim := LIMIT days sorted) in *.
  assert (StronglySorted (fun a b => dated_before b a) sorted) as Hstrict.
  { apply sorted_desc_strict; [apply order_by_date_desc_sorted|].
    subst sorted. rewrite Hperm. exact Hnd. }
  assert (NoDup sorted) as Hnds.
  { rewrite Hperm. eapply NoDup_fmap_1. exact Hnd. }
  rewrite Hsplit in Hstrict, Hnds.
  split; [|split; [|split; [|split]]].
  - intros d Hd. apply in_rev in Hd.
    apply list_elem_of_In. rewrite <- Hperm, Hsplit.
    apply list_elem_of_In, in_or_app. left. exact Hd.
  - apply NoDup_app in Hnds as (Hl & _ & _).
    rewrite <- (Permutation_rev lim). exact Hl.
  - apply StronglySorted_app_1_l in Hstrict.
    exact (StronglySorted_rev _ _ Hstrict).
  - intros d x Hd Hnot Hx. apply in_rev in Hx.
    assert (In d rest) as Hrest.
    { apply list_elem_of_In in Hd. rewrite <- Hperm, Hsplit in Hd.
      apply list_elem_of_In, in_app_or in Hd as [Hd|Hd]; [|exact Hd].
      exfalso. apply Hnot. apply -> in_rev. exact Hd. }
    apply (StronglySorted_app_1_elem_of _ _ _ x d Hstrict);
      apply list_elem_of_In; assumption.
  - intros Hdays. rewrite length_rev, (Hlen Hdays).
    subst sorted. rewrite (Permutation_length Hperm). reflexivity.
Qed.

(** Three records stored out of order, the two most recent asked for. *)
Lemma getDailyStats_most_recent_witness :
  NoDup (map DailyRow.date (daily_stats three_days)) /\
  map DailyRow.date (getDailyStats 2 (Some three_days))
  = [IsoDate.mk 2024 1 2; IsoDate.mk 2024 1 3] /\
  length (getDailyStats 2 (Some three_days)) = 2%nat.
Proof.
  assert (NoDup (map DailyRow.date (daily_stats three_days))) as Hnd
    by (apply NoDup_ListNoDup; repeat constructor; simpl; intuition discriminate).
  split; [exact Hnd|]. split; [reflexivity|].
  destruct (getDailyStats_most_recent 2 three_days Hnd) as (_ & _ & _ & _ & Hlen).
  rewrite Hlen by lia. reflexivity.
Defined.

(** X2. A negative [days] is passed on unchanged by the statistics
    routes (the cap of 90 is a minimum, not a range check) and
    [getDailyStats] then answers every record of the table. *)
Theorem getDailyStats_negative_days (n : Z) (s : Store) :
  n < 0 ->
  daysParam (Some n) = n /\
  getDailyStats (daysParam (Some n)) (Some s) ≡ₚ daily_stats s /\
  length (getDailyStats (daysParam (Some n)) (Some s))
  = length (daily_stats s).
Proof.
  intros Hn.
  assert (daysParam (Some n) = n) as Hp.
  { unfold daysParam. simpl. unfold truthy.
    destruct (Z.eqb_spec n 0); [lia|]. simpl. lia. }
  assert (getDailyStats n (Some s) ≡ₚ daily_stats s) as Hperm.
  { unfold getDailyStats, LIMIT. destruct (Z.ltb_spec n 0); [|lia].
    rewrite <- Permutation_rev. apply order_by_date_desc_perm. }
  rewrite Hp. split; [reflexivity|]. split; [exact Hperm|].
  apply Permutation_length, Hperm.
Qed.

(** [days=-1] on the three stored records. *)
Lemma getDailyStats_negative_days_witness :
  -1 < 0 /\ length (getDailyStats (daysParam (Some (-1))) (Some three_days)) = 3%nat.
Proof.
  split; [lia|].
  destruct (getDailyStats_negative_days (-1) three_days ltac:(lia))
    as (_ & _ & Hlen).
  rewrite Hlen. reflexivity.
Defined.

(** X3. The [days] the statistics routes pass on is never above 90 and
    never 0; it is 7 when the parameter is missing, not a number or 0,
    and the parameter itself between 1 and 90; whenever it is not
    negative the route answers at most 90 records, at most 7 by
    default. *)
Theorem daysParam_cap (parsed : option Z) (db : option Store) :
  daysParam parsed <= 90 /\
  daysParam parsed <> 0 /\
  (truthyOpt parsed = false -> daysParam parsed = 7) /\
  (forall n, parsed = Some n -> 1 <= n <= 90 -> daysParam parsed = n) /\
  (0 <= daysParam parsed ->
   (length (getDailyStats (daysParam parsed) db)
    <= Z.to_nat (daysParam parsed) <= 90)%nat).
Proof.
  unfold daysParam.
  assert (forall n, truthyOpt (Some n) = true -> n <> 0) as Htr.
  { intros n. simpl. unfold truthy. destruct (Z.eqb_spec n 0); [discriminate|auto]. }
  split; [lia|]. split.
  { destruct (truthyOpt parsed) eqn:E; [|lia].
    destruct parsed as [n|]; [|discriminate]. specialize (Htr n E). simpl. lia. }
  split; [intros ->; reflexivity|]. split.
  { intros n -> Hn. destruct (truthyOpt (Some n)) eqn:E; simpl; [lia|].
    simpl in E. unfold truthy in E. destruct (Z.eqb_spec n 0); [lia|discriminate]. }
  intros Hpos. split; [|lia].
  destruct db as [s|]; simpl; [|lia].
  unfold LIMIT. destruct (Z.ltb_spec (Z.min (if truthyOpt parsed then or0 parsed else 7) 90) 0);
    [lia|].
  rewrite length_rev, length_take. lia.
Qed.

Lemma Math_round_avg (t c : Z) :
  0 < c -> Math_round (Qred (inject_Z t / inject_Z c)) = Math_round_div t c.
Proof.
  intros Hc. unfold Math_round, Math_round_div. rewrite Zdiv_Qdiv.
  apply Qfloor_comp. rewrite Qred_correct, inject_Z_plus, !inject_Z_mult.
  assert (~ inject_Z c == 0)%Q as Hnz.
  { unfold Qeq, inject_Z. simpl. lia. }
  field. exact Hnz.
Qed.

(** A record that every other record of the table is dated before comes
    first in [ORDER BY date DESC]. *)
Lemma latest_first (tbl : list DailyRow.t) (top : DailyRow.t) :
  In top tbl ->
  (forall x, In x tbl -> x = top \/ dated_before x top) ->
  exists rest, order_by_date_desc tbl = top :: rest.
Proof.
  intros Hin Hall.
  pose proof (order_by_date_desc_perm tbl) as Hperm.
  pose proof (order_by_date_desc_sorted tbl) as Hsorted.
  destruct (order_by_date_desc tbl) as [|h rest].
  { apply list_elem_of_In in Hin. rewrite <- Hperm in Hin.
    apply list_elem_of_In in Hin. destruct Hin. }
  exists rest. f_equal.
  assert (In h tbl) as Hh.
  { apply list_elem_of_In. rewrite <- Hperm. apply list_elem_of_In. left. reflexivity. }
  destruct (Hall h Hh) as [->|Hbefore]; [reflexivity|].
  exfalso. apply StronglySorted_inv in Hsorted as [_ Hfa].
  rewrite List.Forall_forall in Hfa.
  apply list_elem_of_In in Hin. rewrite <- Hperm in Hin.
  apply list_elem_of_In in Hin. destruct Hin as [->|Hin].
  - unfold dated_before in Hbefore. rewrite ltb_irrefl in Hbefore. discriminate.
  - specialize (Hfa top Hin). unfold not_before, dated_before in *. congruence.
Qed.

(** X4. What the persistence step rolls up is what the charts read:
    after [saveBlocksToStats] has run at time [now] on a non-empty
    batch, on a store with no daily record dated after the current day,
    and some history row carries the current date, [getDailyTxCounts(1)]
    answers one point, the current date with the sum of the transaction
    counts of that day's history rows, and [getDailyBlockSizes(1)] one
    point, the current date with the mean size of those rows rounded to
    the nearest integer. *)
Theorem persisted_day_is_served
    (now : Z) (blocks : list Block.t) (s s' : Store) :
  blocks <> [] ->
  let today := IsoDate.of_timestamp (now / 1000) in
  (forall d, In d (daily_stats s) ->
             IsoDate.ltb today (DailyRow.date d) = false) ->
  saveBlocksToStats now blocks (Some s) = Some s' ->
  let rows := rows_of_date today (blocks_history s') in
  rows <> [] ->
  getDailyTxCounts 1 (Some s')
  = [TxCountPoint.mk today (total (map HistRow.tx_count rows))] /\
  exists avg,
    getDailyBlockSizes 1 (Some s') = [BlockSizePoint.mk today avg] /\
    (2 * avg - 1) * COUNT rows <= 2 * total (map HistRow.size rows)
      < (2 * avg + 1) * COUNT rows.
Proof.
  intros Hne today Hlatest Hsave rows Hrows.
  destruct blocks as [|b bs]; [contradiction|]. clear Hne.
  unfold saveBlocksToStats, updateDailyStats in Hsave.
  cbn [blocks_history daily_stats] in Hsave. fold today in Hsave.
  set (hist := insertMany (b :: bs) (blocks_history s)) in *.
  assert (blocks_history s' = hist) as Hhist.
  { destruct (0 <? _) in Hsave; injection Hsave as <-; reflexivity. }
  subst rows. rewrite Hhist in *.
  set (rows := rows_of_date today hist) in *.
  assert (0 < COUNT rows) as Hpos.
  { unfold COUNT. destruct rows; [contradiction|simpl; lia]. }
  destruct (Z.ltb_spec 0 (COUNT rows)) as [_|]; [|lia].
  injection Hsave as <-. cbn [daily_stats].
  set (top := DailyRow.mk today _ _ _ _ _).
  destruct (latest_first (insert_or_replace top (daily_stats s)) top)
    as [rest Hsorted].
  { unfold insert_or_replace. apply in_or_app. right. left. reflexivity. }
  { intros x Hx. unfold insert_or_replace in Hx.
    apply in_app_or in Hx as [Hx|[<-|[]]]; [right|left; reflexivity].
    apply List.filter_In in Hx as [Hx Hdate]. cbn [DailyRow.date top] in Hdate.
    unfold dated_before. cbn [DailyRow.date top].
    destruct (date_trichotomy (DailyRow.date x) today) as [Heq|[Hlt|Hgt]].
    - rewrite Heq, IsoDate_eqb_refl in Hdate. discriminate.
    - exact Hlt.
    - rewrite (Hlatest x Hx) in Hgt. discriminate. }
  unfold getDailyTxCounts, getDailyBlockSizes, getDailyStats.
  cbn [daily_stats]. rewrite Hsorted. cbn [LIMIT Z.ltb Z.compare Z.to_nat
    Pos.to_nat Pos.iter_op take rev app map].
  split.
  - subst top. cbn [DailyRow.date DailyRow.tx_count or0].
    rewrite or0_SUM. reflexivity.
  - eexists. split; [reflexivity|].
    subst top. cbn [DailyRow.avg_block_size or0Q].
    assert (map HistRow.size rows <> []) as Hsz
      by (destruct rows; [contradiction|discriminate]).
    destruct (map HistRow.size rows) as [|z zs] eqn:Ez; [contradiction|].
    cbn [AVG or0Q]. rewrite <- Ez, COUNT_map, Math_round_avg by exact Hpos.
    apply Math_round_div_nearest, Hpos.
Qed.

(** The two sample blocks persisted on the day they were mined. *)
Lemma persisted_day_is_served_witness :
  Sample.blocks <> [] /\
  exists s',
    saveBlocksToStats Sample.t0 Sample.blocks (Some empty_store) = Some s' /\
    getDailyTxCounts 1 (Some s')
    = [TxCountPoint.mk (IsoDate.mk 2024 1 1) 8] /\
    getDailyBlockSizes 1 (Some s')
    = [BlockSizePoint.mk (IsoDate.mk 2024 1 1) 1500].
Proof.
  assert (Sample.blocks <> []) as Hne by discriminate.
  split; [exact Hne|].
  destruct (saveBlocksToStats Sample.t0 Sample.blocks (Some empty_store))
    as [s'|] eqn:Hs; [|vm_compute in Hs; discriminate].
  exists s'. split; [reflexivity|].
  destruct (persisted_day_is_served Sample.t0 Sample.blocks empty_store s' Hne)
    as [Htx _].
  - intros d [].
  - exact Hs.
  - vm_compute in Hs. injection Hs as <-. vm_compute. discriminate.
  - split.
    + rewrite Htx. vm_compute in Hs. injection Hs as <-. reflexivity.
    + vm_compute in Hs. injection Hs as <-. reflexivity.
Defined.

(** ** The timer *)

Section Timer.

Lemma callUpdateManager_step m : step m Call = Some (callUpdateManager m).
Proof.
  unfold callUpdateManager. simpl. destruct (enter (shared m)); reflexivity.
Qed.

Lemma callUpdateManager_inv m :
  single_flight_inv m -> single_flight_inv (callUpdateManager m).
Proof.
  intros H. exact (single_flight_step m Call _ H (callUpdateManager_step m)).
Qed.

Lemma startUpdateManager_inv p :
  timer_inv p -> timer_inv (startUpdateManager p).
Proof.
  unfold timer_inv, startUpdateManager.
  destruct (updateInterval p) as [h|] eqn:E; simpl; [rewrite E; auto|].
  intros ->. reflexivity.
Qed.

Lemma stopUpdateManager_inv p :
  timer_inv p -> timer_inv (stopUpdateManager p) /\
                 intervals (stopUpdateManager p) = [].
Proof.
  unfold timer_inv, stopUpdateManager.
  destruct (updateInterval p) as [h|] eqn:E; simpl.
  - intros ->. simpl. rewrite Nat.eqb_refl. simpl. auto.
  - rewrite E. auto.
Qed.

Lemma pstep_inv p e p' :
  timer_inv p /\ single_flight_inv (machine p) ->
  pstep p e = Some p' ->
  timer_inv p' /\ single_flight_inv (machine p').
Proof.
  intros [Ht Hm] Hstep. destruct e as [| |h|e]; simpl in Hstep.
  - injection Hstep as <-. split; [apply startUpdateManager_inv, Ht|].
    unfold startUpdateManager. destruct (updateInterval p); simpl;
      [exact Hm|apply callUpdateManager_inv, Hm].
  - injection Hstep as <-. split; [apply stopUpdateManager_inv, Ht|].
    unfold stopUpdateManager. destruct (updateInterval p); exact Hm.
  - destruct (existsb _ _); [|discriminate]. injection Hstep as <-.
    split; [exact Ht|apply callUpdateManager_inv, Hm].
  - destruct (step (machine p) e) as [m|] eqn:E; [|discriminate].
    injection Hstep as <-. split; [exact Ht|].
    exact (single_flight_step _ _ _ Hm E).
Qed.

Lemma prun_inv es p p' :
  timer_inv p /\ single_flight_inv (machine p) ->
  prun p es = Some p' ->
  timer_inv p' /\ single_flight_inv (machine p').
Proof.
  revert p. induction es as [|e es IH]; simpl; intros p Hinv Hrun.
  - injection Hrun as <-. exact Hinv.
  - destruct (pstep p e) as [p1|] eqn:E; [|discriminate].
    apply (IH p1); [eapply pstep_inv; eassumption|exact Hrun].
Qed.

End Timer.

(** X5. Whatever sequence of [startUpdateManager], [stopUpdateManager],
    timer ticks, forced calls and settled fetches the process has gone
    through since it was loaded, the runtime holds at most one interval,
    the one the module remembers; starting twice is starting once, and
    starting while a timer is set changes nothing (no second timer, no
    extra cycle); stopping leaves no interval, so no tick can follow,
    and does not touch the cycle in flight; and at most one cycle is in
    flight. *)
Theorem updateManager_one_timer (es : list ProcessEvent) (p : Process) :
  prun launch es = Some p ->
  (length (intervals p) <= 1)%nat /\
  intervals p = match updateInterval p with Some h => [h] | None => [] end /\
  startUpdateManager (startUpdateManager p) = startUpdateManager p /\
  (updateInterval p <> None -> startUpdateManager p = p) /\
  intervals (stopUpdateManager p) = [] /\
  machine (stopUpdateManager p) = machine p /\
  (forall h, pstep (stopUpdateManager p) (Tick h) = None) /\
  (length (inflight (machine p)) <= 1)%nat.
Proof.
  intros Hrun.
  assert (timer_inv launch /\ single_flight_inv (machine launch)) as H0.
  { split; [reflexivity|]. split; simpl; [lia|]. split; [discriminate|done]. }
  destruct (prun_inv es launch p H0 Hrun) as [Ht [Hlen _]].
  split; [rewrite Ht; destruct (updateInterval p); simpl; lia|].
  split; [exact Ht|]. split; [|split; [|split; [|split; [|split]]]].
  - unfold startUpdateManager.
    destruct (updateInterval p) eqn:E; simpl; [rewrite E|]; reflexivity.
  - intros Hset. unfold startUpdateManager.
    destruct (updateInterval p); [reflexivity|contradiction].
  - apply stopUpdateManager_inv, Ht.
  - unfold stopUpdateManager. destruct (updateInterval p); reflexivity.
  - intros h. simpl.
    destruct (stopUpdateManager_inv p Ht) as [_ ->]. reflexivity.
  - exact Hlen.
Qed.

(** Started twice, a tick, then stopped. *)
Lemma updateManager_one_timer_witness :
  exists p,
    prun launch [Start; Start; Tick 0%nat; Stop] = Some p /\
    intervals p = [] /\ started (machine p) = 1%nat.
Proof.
  eexists. split; [reflexivity|].
  destruct (updateManager_one_timer [Start; Start; Tick 0%nat; Stop] _ eq_refl)
    as (_ & Hint & _).
  split; [exact Hint|reflexivity].
Defined.

(** ** What the readers of the live cache see *)

Section Readers.

Lemma publish_blocks now l r st :
  liveCache (publish now l r st).1 !! LIVE_KEYS.BLOCKS
  = Some (mkEntry (VBlocks (l_blocks l)) now).
Proof.
  unfold publish, setLive; simpl.
  destruct (truthyOpt r); repeat (rewrite lookup_insert_ne by done);
    apply lookup_insert_eq.
Qed.

Lemma publish_tipHeight now l r st :
  liveCache (publish now l r st).1 !! LIVE_KEYS.TIP_HEIGHT
  = Some (mkEntry (VTipHeight (l_tipHeight l)) now).
Proof.
  unfold publish, setLive; simpl.
  destruct (truthyOpt r); repeat (rewrite lookup_insert_ne by done);
    apply lookup_insert_eq.
Qed.

Lemma publish_in_step now l r st : in_step (publish now l r st).1.
Proof.
  right. exists (snapshot now l r), (l_blocks l), (l_mempool l).
  cbn zeta. rewrite publish_lastUpdateTime.
  split; [apply publish_dashboard|]. split; [apply publish_blocks|].
  split; [apply publish_tipHeight|]. split; [apply publish_mempool|].
  split; [reflexivity|]. split; reflexivity.
Qed.

(** [in_step] looks at the live cache and at [lastUpdateTime] only. *)
Lemma in_step_ext st st' :
  liveCache st' = liveCache st -> lastUpdateTime st' = lastUpdateTime st ->
  in_step st -> in_step st'.
Proof. unfold in_step. intros -> ->. auto. Qed.

Lemma after_fanout_in_step now f st :
  in_step st -> in_step (after_fanout now f st).1.
Proof.
  intros Hst. unfold after_fanout.
  destruct (f_blocks f) as [blocks|];
    [|exact (in_step_ext st _ eq_refl eq_refl Hst)].
  destruct (f_tipHeight f) as [tip|];
    [|exact (in_step_ext st _ eq_refl eq_refl Hst)].
  destruct (blocks !! 0%nat) as [b0|]; [|by_publish publish_in_step].
  destruct (truthyOpt _); [by_publish publish_in_step|exact Hst].
Qed.

Lemma after_reward_in_step now r l st : in_step (after_reward now r l st).1.
Proof.
  unfold after_reward.
  destruct r as [txs|]; [destruct (coinbase_of txs)|];
    by_publish publish_in_step.
Qed.

Lemma step_in_step m e m' :
  in_step (shared m) -> step m e = Some m' -> in_step (shared m').
Proof.
  intros Hst Hstep. destruct e as [|i now f|i now r]; simpl in Hstep.
  - unfold enter in Hstep. destruct (updateManagerRunning (shared m));
      injection Hstep as <-; [exact Hst|].
    exact (in_step_ext (shared m) _ eq_refl eq_refl Hst).
  - destruct (inflight m !! i) as [[|]|]; try discriminate.
    pose proof (after_fanout_in_step now f (shared m) Hst) as H.
    destruct (after_fanout now f (shared m)). injection Hstep as <-. exact H.
  - destruct (inflight m !! i) as [[|ep l]|]; try discriminate.
    pose proof (after_reward_in_step now r l (shared m)) as H.
    destruct (after_reward now r l (shared m)). injection Hstep as <-. exact H.
Qed.

Lemma run_in_step es m m' :
  in_step (shared m) -> run m es = Some m' -> in_step (shared m').
Proof.
  revert m. induction es as [|e es IH]; simpl; intros m Hst Hrun.
  - injection Hrun as <-. exact Hst.
  - destruct (step m e) as [m1|] eqn:E; [|discriminate].
    apply (IH m1); [eapply step_in_step; eassumption|exact Hrun].
Qed.

Lemma boot_initial_in_step : in_step (shared (boot initial)).
Proof. left. simpl. rewrite !lookup_empty. auto. Qed.

(** What the four getters answer at time [t] from a cache in step. *)
Lemma in_step_served st t :
  in_step st ->
  let c := liveCache st in
  (getDashboard t c = None /\ getBlocks t c = None /\
   getTipHeight t c = None /\ getMempool t c = None /\
   (lastUpdateTime st = 0 \/ LIVE_TTL < t - lastUpdateTime st)) \/
  (exists d bs mp,
     getDashboard t c = Some d /\ getBlocks t c = Some bs /\
     getTipHeight t c = Some (Dashboard.tipHeight d) /\
     getMempool t c = Some mp /\
     Dashboard.blocks d = take 15 bs /\
     Dashboard.mempoolCount d = Z.of_nat (length mp) /\
     Dashboard.updatedAt d = lastUpdateTime st /\
     t - lastUpdateTime st <= LIVE_TTL).
Proof.
  intros [(Hd & Hb & Ht & Hm & H0)|(d & bs & mp & Hd & Hb & Ht & Hm & Hbs & Hmp & Hup)] c;
    subst c; unfold getDashboard, getBlocks, getTipHeight, getMempool, getLive.
  - rewrite Hd, Hb, Ht, Hm. left. auto 6.
  - cbn zeta in *. rewrite Hd, Hb, Ht, Hm. unfold isStale. simpl.
    destruct (Z.gtb_spec (t - lastUpdateTime st) LIVE_TTL).
    + left. auto 6.
    + right. exists d, bs, mp. auto 10.
Qed.

End Readers.

(** X6. Whatever calls and settled fetches the Update Manager has gone
    through since the module was loaded, a reader of the live cache
    finds, at any time, either none of the dashboard, the block list,
    the tip height and the mempool, or all four as the same publication
    wrote them: the tip height of the dashboard is the tip height
    served, its blocks are the first 15 of the block list served, its
    mempool count is the length of the mempool served, and it was
    written at [lastUpdateTime]. *)
Theorem live_keys_served_together (es : list Event) (m : Machine) (t : Z) :
  run (boot initial) es = Some m ->
  let c := liveCache (shared m) in
  (getDashboard t c = None /\ getBlocks t c = None /\
   getTipHeight t c = None /\ getMempool t c = None) \/
  (exists d bs mp,
     getDashboard t c = Some d /\ getBlocks t c = Some bs /\
     getTipHeight t c = Some (Dashboard.tipHeight d) /\
     getMempool t c = Some mp /\
     Dashboard.blocks d = take 15 bs /\
     Dashboard.mempoolCount d = Z.of_nat (length mp) /\
     Dashboard.updatedAt d = lastUpdateTime (shared m)).
Proof.
  intros Hrun c.
  pose proof (run_in_step es _ m boot_initial_in_step Hrun) as Hst.
  destruct (in_step_served (shared m) t Hst)
    as [(Hd & Hb & Ht & Hm & _)|(d & bs & mp & Hd & Hb & Ht & Hm & Hbs & Hmp & Hup & _)].
  - left. auto.
  - right. exists d, bs, mp. auto 10.
Qed.

(** A call, the fan-out settled, read 5 seconds later. *)
Lemma live_keys_served_together_witness :
  exists m d,
    run (boot initial)
      [Call; FanoutSettled 0 Sample.t0 Sample.fanout_empty] = Some m /\
    getDashboard (Sample.t0 + 5000) (liveCache (shared m)) = Some d /\
    getTipHeight (Sample.t0 + 5000) (liveCache (shared m))
    = Some (Dashboard.tipHeight d).
Proof.
  eexists.
  destruct (live_keys_served_together
              [Call; FanoutSettled 0 Sample.t0 Sample.fanout_empty] _
              (Sample.t0 + 5000) eq_refl)
    as [(Hd & _)|(d & bs & mp & Hd & _ & Ht & _)].
  - vm_compute in Hd. discriminate.
  - exists d. split; [reflexivity|]. split; [exact Hd|exact Ht].
Defined.

(** X7. The flag [isFresh] served beside a dashboard speaks of that
    dashboard: whenever the dashboard is readable its snapshot was
    written at [lastUpdateTime], so [isCacheFresh()] holds exactly when
    the snapshot is younger than 30000 ms; and once the clock is past
    30000, a fresh cache always has a dashboard to serve. *)
Theorem fresh_means_served (es : list Event) (m : Machine) (t : Z) :
  run (boot initial) es = Some m ->
  let st := shared m in
  (forall d, getDashboard t (liveCache st) = Some d ->
     (isCacheFresh t st = true <-> t - Dashboard.updatedAt d < 30000)) /\
  (30000 <= t -> isCacheFresh t st = true ->
   exists d, getDashboard t (liveCache st) = Some d).
Proof.
  intros Hrun st.
  pose proof (run_in_step es _ m boot_initial_in_step Hrun) as Hst.
  fold st in Hst.
  destruct (in_step_served st t Hst)
    as [(Hd & _ & _ & _ & Hwhy)|(d & bs & mp & Hd & _ & _ & _ & _ & _ & Hup & _)].
  - split; [intros d Hd'; congruence|].
    intros Ht Hfresh. exfalso. unfold isCacheFresh in Hfresh.
    apply Z.ltb_lt in Hfresh. unfold FRESH_THRESHOLD, LIVE_TTL in *.
    destruct Hwhy as [H0|Hold]; lia.
  - split; [|intros _ _; exists d; exact Hd].
    intros d' Hd'. rewrite Hd in Hd'. injection Hd' as <-.
    unfold isCacheFresh. rewrite Hup. apply Z.ltb_lt.
Qed.

(** Five seconds after a publication the cache is fresh, so a dashboard
    is served. *)
Lemma fresh_means_served_witness :
  exists m,
    run (boot initial)
      [Call; FanoutSettled 0 Sample.t0 Sample.fanout_empty] = Some m /\
    (30000 <= Sample.t0 + 5000 /\
     isCacheFresh (Sample.t0 + 5000) (shared m) = true) /\
    exists d, getDashboard (Sample.t0 + 5000) (liveCache (shared m)) = Some d.
Proof.
  eexists. split; [reflexivity|].
  assert (30000 <= Sample.t0 + 5000) as Ht by (vm_compute; discriminate).
  split; [split; [exact Ht|reflexivity]|].
  destruct (fresh_means_served
              [Call; FanoutSettled 0 Sample.t0 Sample.fanout_empty] _
              (Sample.t0 + 5000) eq_refl) as [_ Hserved].
  exact (Hserved Ht eq_refl).
Defined.

(** X8. What a cycle fetched is what the getters answer: after a cycle
    whose blocks and tip-height fetches were fulfilled, for 60000 ms
    from the publication [getBlocks] answers the whole block list
    fetched, [getTipHeight] the tip height fetched, [getMempool] the
    mempool fetched (the empty list when that fetch was rejected) and
    [getDashboard] the snapshot published; later than that all four
    answer nothing. *)
Theorem published_is_served
    (inp : CycleInput) (st : State) (blocks : list Block.t) (tip t : Z) :
  updateManagerRunning st = false ->
  f_blocks (c_fanout inp) = Ok blocks ->
  f_tipHeight (c_fanout inp) = Ok tip ->
  let res := updateManager inp st in
  let c := liveCache (final res) in
  exists d,
    outcome res = Published d /\
    (t - Dashboard.updatedAt d <= LIVE_TTL ->
     getDashboard t c = Some d /\ getBlocks t c = Some blocks /\
     getTipHeight t c = Some tip /\
     getMempool t c = Some (catch_default (f_mempool (c_fanout inp)) [])) /\
    (LIVE_TTL < t - Dashboard.updatedAt d ->
     getDashboard t c = None /\ getBlocks t c = None /\
     getTipHeight t c = None /\ getMempool t c = None).
Proof.
  intros Hidle Hb Ht res c.
  destruct (updateManager_fulfilled inp st blocks tip Hidle Hb Ht)
    as (now & r & st1 & req & Hres & _).
  subst c res. rewrite Hres. cbn [final outcome].
  eexists. split; [reflexivity|].
  unfold getDashboard, getBlocks, getTipHeight, getMempool, getLive.
  rewrite publish_dashboard, publish_blocks, publish_tipHeight, publish_mempool.
  unfold isStale. cbn [entry_start entry_value]. simpl Dashboard.updatedAt.
  split; intros Hage.
  - destruct (Z.gtb_spec (t - now) LIVE_TTL); [lia|]. auto.
  - destruct (Z.gtb_spec (t - now) LIVE_TTL); [|lia]. auto.
Qed.

(** The degraded sample cycle, read 59 and 61 seconds later. *)
Lemma published_is_served_witness :
  let res := updateManager (Sample.cycle_degraded Sample.t0) initial in
  updateManagerRunning initial = false /\
  getBlocks (Sample.t0 + 59000) (liveCache (final res)) = Some Sample.blocks /\
  getMempool (Sample.t0 + 59000) (liveCache (final res)) = Some [] /\
  getBlocks (Sample.t0 + 61000) (liveCache (final res)) = None.
Proof.
  intros res. split; [reflexivity|].
  destruct (published_is_served (Sample.cycle_degraded Sample.t0) initial
              Sample.blocks 101 (Sample.t0 + 59000) eq_refl eq_refl eq_refl)
    as (d & Ho & Hlive & _).
  injection Ho as <-.
  destruct Hlive as (_ & Hb & _ & Hm); [vm_compute; discriminate|].
  split; [exact Hb|]. split; [exact Hm|reflexivity].
Defined.

(** ** The routes that read the live cache *)

Lemma getDashboard_stays_none t t' c :
  t <= t' -> getDashboard t c = None -> getDashboard t' c = None.
Proof.
  unfold getDashboard, getLive, isStale. intros Hle.
  destruct (c !! LIVE_KEYS.DASHBOARD) as [e|]; [|auto].
  destruct (Z.gtb_spec (t - entry_start e) LIVE_TTL);
    destruct (Z.gtb_spec (t' - entry_start e) LIVE_TTL); auto; lia.
Qed.

(** The state a publishing call leaves. *)
Lemma published_state inp st d :
  outcome (updateManager inp st) = Published d ->
  liveCache (final (updateManager inp st)) !! LIVE_KEYS.DASHBOARD
    = Some (mkEntry (VDashboard d) (Dashboard.updatedAt d)) /\
  lastUpdateTime (final (updateManager inp st)) = Dashboard.updatedAt d.
Proof.
  assert (forall t l r s, (publish t l r s).2 = Published d ->
            liveCache (publish t l r s).1 !! LIVE_KEYS.DASHBOARD
              = Some (mkEntry (VDashboard d) (Dashboard.updatedAt d)) /\
            lastUpdateTime (publish t l r s).1 = Dashboard.updatedAt d) as Hpub.
  { intros t l r s [= <-]. split; [apply publish_dashboard|reflexivity]. }
  unfold updateManager, enter.
  destruct (updateManagerRunning st); [discriminate|].
  unfold after_fanout.
  destruct (f_blocks (c_fanout inp)) as [blocks|]; [|discriminate].
  destruct (f_tipHeight (c_fanout inp)) as [tip|]; [|discriminate].
  destruct (blocks !! 0%nat) as [b0|]; [|by_publish Hpub].
  destruct (truthyOpt _); [by_publish Hpub|].
  unfold after_reward.
  destruct (c_reward inp) as [txs|]; [destruct (coinbase_of txs)|];
    by_publish Hpub.
Qed.

(** X9. [GET /api/dashboard] on an empty (or expired) live cache: while
    a cycle is in flight the forced refresh is dropped without waiting
    for it, and the answer is 503 with the state untouched; with no
    cycle in flight and the blocks or tip-height fetch rejected the
    answer is 503 as well and the state is as it was; and when the
    forced cycle publishes, the answer is its snapshot, flagged fresh
    exactly when the handler resumes less than 30000 ms after the
    publication. *)
Theorem api_dashboard_forced_refresh
    (now : Z) (inp : CycleInput) (now' : Z) (st : State) :
  getDashboard now (liveCache st) = None ->
  now <= now' ->
  (updateManagerRunning st = true ->
   api_dashboard now inp now' st = (st, DataNotReady)) /\
  (updateManagerRunning st = false ->
   (exists msg, f_blocks (c_fanout inp) = Err msg) \/
   (exists msg, f_tipHeight (c_fanout inp) = Err msg) ->
   api_dashboard now inp now' st = (st, DataNotReady)) /\
  (forall d,
     outcome (updateManager inp st) = Published d ->
     now' - Dashboard.updatedAt d <= LIVE_TTL ->
     api_dashboard now inp now' st
     = (final (updateManager inp st),
        DashboardJson d (now' - Dashboard.updatedAt d <? 30000))).
Proof.
  intros Hmiss Hle.
  pose proof (getDashboard_stays_none now now' _ Hle Hmiss) as Hmiss'.
  unfold api_dashboard. rewrite Hmiss. split; [|split].
  - intros Hbusy. unfold updateManager. rewrite (enter_running st Hbusy).
    cbn [final]. rewrite Hmiss'. reflexivity.
  - intros Hidle Hrej. unfold updateManager.
    rewrite (enter_Some st Hidle), (after_fanout_rejected _ _ _ Hrej).
    cbn [final].
    replace (release _) with st
      by (destruct st; unfold release; simpl in *; subst; reflexivity).
    rewrite Hmiss'. reflexivity.
  - intros d Hpub Hage.
    destruct (published_state inp st d Hpub) as [Hentry Hlast].
    cbn zeta. unfold getDashboard, getLive. rewrite Hentry.
    unfold isStale. cbn [entry_start entry_value].
    destruct (Z.gtb_spec (now' - Dashboard.updatedAt d) LIVE_TTL); [lia|].
    unfold isCacheFresh. rewrite Hlast. reflexivity.
Qed.

(** The first request after the module is loaded, with a cycle in
    flight, and with none. *)
Lemma api_dashboard_forced_refresh_witness :
  let busy := mkState true 0 ∅ ∅ None in
  (getDashboard Sample.t0 (liveCache busy) = None /\ Sample.t0 <= Sample.t0) /\
  api_dashboard Sample.t0 (Sample.cycle_ok Sample.t0) Sample.t0 busy
  = (busy, DataNotReady) /\
  exists d st',
    api_dashboard Sample.t0 (Sample.cycle_ok Sample.t0) (Sample.t0 + 40) initial
    = (st', DashboardJson d true).
Proof.
  intros busy. split; [split; [reflexivity|lia]|].
  destruct (api_dashboard_forced_refresh Sample.t0 (Sample.cycle_ok Sample.t0)
              Sample.t0 busy eq_refl ltac:(lia)) as (Hbusy & _).
  split; [exact (Hbusy eq_refl)|].
  eexists. eexists. reflexivity.
Defined.

Lemma Math_ceil_div_25 (a : Z) :
  (Math_ceil_div a 25 - 1) * 25 < a <= Math_ceil_div a 25 * 25.
Proof.
  unfold Math_ceil_div.
  pose proof (Z.div_mod (- a) 25 ltac:(lia)).
  pose proof (Z.mod_pos_bound (- a) 25 ltac:(lia)).
  lia.
Qed.

(** X10. [GET /api/blocks/recent] for a page from 2 on never looks at
    the cache: it asks the upstream for the tip height and then for
    [/blocks/<tip - (page - 1) * 25>]; the page count it reports is the
    number of 25-block pages that cover heights 0 to tip, and the start
    height it asks for is a height of the chain exactly when the page is
    not past the last one (a page past it asks for a negative
    height). *)
Theorem api_blocks_recent_pages
    (now page tip : Z) (blocksAnswer : Z -> result (list Block.t))
    (st : State) (blocks : list Block.t) :
  2 <= page -> 0 <= tip ->
  blocksAnswer (tip - (page - 1) * 25) = Ok blocks ->
  exists startHeight totalPages,
    api_blocks_recent now (Some page) (Ok tip) blocksAnswer st
    = (Ok (mkBlocksPage blocks tip page totalPages None),
       ["/blocks/tip/height"; "/blocks/" +:+ pretty startHeight]) /\
    startHeight = tip - (page - 1) * 25 /\
    (totalPages - 1) * 25 <= tip < totalPages * 25 /\
    (0 <= startHeight <= tip <-> page <= totalPages).
Proof.
  intros Hpage Htip Hans.
  exists (tip - (page - 1) * 25), (Math_ceil_div (tip + 1) 25).
  pose proof (Math_ceil_div_25 (tip + 1)) as Hceil.
  split; [|split; [reflexivity|split; [lia|split; lia]]].
  unfold api_blocks_recent.
  assert (truthyOpt (Some page) = true) as ->.
  { simpl. unfold truthy. destruct (Z.eqb_spec page 0); [lia|reflexivity]. }
  cbn [or0]. destruct (Z.eqb_spec page 1); [lia|].
  rewrite Hans. reflexivity.
Qed.

(** Tip height 60: three pages; page 3 starts at height 10, page 4 asks
    for height -15. *)
Lemma api_blocks_recent_pages_witness :
  (2 <= 4 /\ 0 <= 60) /\
  api_blocks_recent 0 (Some 4) (Ok 60) (fun _ => Ok []) initial
  = (Ok (mkBlocksPage [] 60 4 3 None),
     ["/blocks/tip/height"; "/blocks/-15"]) /\
  ~ (0 <= 60 - (4 - 1) * 25).
Proof.
  split; [lia|]. split; [reflexivity|].
  destruct (api_blocks_recent_pages 0 4 60 (fun _ => Ok []) initial []
              ltac:(lia) ltac:(lia) eq_refl)
    as (sh & tp & Heq & -> & Htp & Hiff).
  intros Hsh. assert (4 <= tp) by (apply Hiff; lia). lia.
Defined.

(** X11. After whatever the Update Manager has gone through, when the
    dashboard is readable and its tip height is not 0, the first page
    of [GET /api/blocks/recent] (page missing, not a number, 0 or 1) is
    answered from the cache alone: no upstream request, at most 25
    blocks whose first 15 are the blocks of the dashboard, the tip
    height of the dashboard, and the freshness flag.  At tip height 0
    the cached values are passed over and the upstream is asked. *)
Theorem first_page_from_cache
    (es : list Event) (m : Machine) (now : Z) (pageParam : option Z)
    (tipAnswer : result Z) (blocksAnswer : Z -> result (list Block.t))
    (d : Dashboard.t) :
  run (boot initial) es = Some m ->
  truthyOpt pageParam = false \/ pageParam = Some 1 ->
  getDashboard now (liveCache (shared m)) = Some d ->
  let reply := api_blocks_recent now pageParam tipAnswer blocksAnswer (shared m) in
  (Dashboard.tipHeight d <> 0 ->
   exists page,
     reply = (Ok page, []) /\
     bp_tipHeight page = Dashboard.tipHeight d /\
     take 15 (bp_blocks page) = Dashboard.blocks d /\
     (length (bp_blocks page) <= 25)%nat /\
     bp_currentPage page = 1 /\
     bp_isFresh page = Some (isCacheFresh now (shared m))) /\
  (Dashboard.tipHeight d = 0 ->
   exists rest, snd reply = "/blocks/tip/height" :: rest).
Proof.
  intros Hrun Hpage Hd reply.
  pose proof (run_in_step es _ m boot_initial_in_step Hrun) as Hst.
  destruct (in_step_served (shared m) now Hst)
    as [(Hd' & _)|(d' & bs & mp & Hd' & Hb & Ht & _ & Hbs & _)];
    [congruence|].
  rewrite Hd in Hd'. injection Hd' as <-.
  assert ((if truthyOpt pageParam then or0 pageParam else 1) = 1) as Hone.
  { destruct Hpage as [->| ->]; reflexivity. }
  subst reply. unfold api_blocks_recent. rewrite Hone, Hb, Ht. cbn [Z.eqb Pos.eqb].
  unfold truthy. split.
  - intros Hnz. destruct (Z.eqb_spec (Dashboard.tipHeight d) 0); [contradiction|].
    cbn [negb]. eexists. split; [reflexivity|].
    cbn [bp_tipHeight bp_blocks bp_currentPage bp_isFresh].
    split; [reflexivity|]. split; [rewrite take_take, Hbs; reflexivity|].
    split; [rewrite length_take; lia|]. split; reflexivity.
  - intros ->. cbn [Z.eqb negb].
    destruct tipAnswer as [tip|msg]; [|eexists; reflexivity].
    destruct (blocksAnswer _); eexists; reflexivity.
Qed.

(** A publication at height 101, then the first page asked for. *)
Lemma first_page_from_cache_witness :
  exists m page,
    run (boot initial)
      [Call; FanoutSettled 0 Sample.t0 Sample.fanout_ok;
       RewardSettled 0 (Sample.t0 + 40) (Err "timeout")] = Some m /\
    api_blocks_recent (Sample.t0 + 1000) None (Err "down") (fun _ => Err "down")
      (shared m) = (Ok page, []) /\
    bp_tipHeight page = 101.
Proof.
  eexists.
  destruct (first_page_from_cache
              [Call; FanoutSettled 0 Sample.t0 Sample.fanout_ok;
               RewardSettled 0 (Sample.t0 + 40) (Err "timeout")] _
              (Sample.t0 + 1000) None (Err "down") (fun _ => Err "down") _
              eq_refl (or_introl eq_refl) eq_refl) as [Hserved _].
  destruct Hserved as (page & Hreply & Htip & _); [vm_compute; discriminate|].
  exists page. split; [reflexivity|]. split; [exact Hreply|exact Htip].
Defined.

(** ** Display helpers *)

(** A string already cut around the dots is cut again into itself. *)
Lemma formatHash_cut (p q : list Ascii.ascii) (len : nat) :
  length p = (len / 2)%nat -> length q = (len / 2)%nat ->
  (1 <= len / 2)%nat -> (len < 2 * (len / 2) + 3)%nat ->
  formatHash (Some (p ++ ellipsis ++ q)) len = p ++ ellipsis ++ q.
Proof.
  intros Hp Hq Hk Hlen. unfold formatHash, slice_first, slice_last.
  assert (length (p ++ ellipsis ++ q) = (2 * (len / 2) + 3)%nat) as Hl.
  { rewrite !length_app, Hp, Hq. simpl. lia. }
  rewrite Hl. destruct (Nat.ltb_spec len (2 * (len / 2) + 3)); [|lia].
  destruct (len / 2)%nat as [|k'] eqn:Ek; [lia|].
  f_equal.
  - apply take_app_length'. symmetry. exact Hp.
  - f_equal. rewrite !app_assoc.
    replace (2 * S k' + 3 - S k')%nat with (length (p ++ ellipsis))
      by (rewrite length_app, Hp; simpl; lia).
    apply drop_app_length.
Qed.

(** X12. [formatHash] with a length of at least 2 leaves a string no
    longer than the length as it is and turns a longer one into its
    first and last [length / 2] code units around three dots; the
    result is at most two code units longer than the input, and
    formatting it again changes nothing. *)
Theorem formatHash_stable (h : list Ascii.ascii) (len : nat) :
  (2 <= len)%nat ->
  let k := (len / 2)%nat in
  let out := formatHash (Some h) len in
  formatHash (Some out) len = out /\
  ((length h <= len)%nat -> out = h) /\
  ((len < length h)%nat ->
   out = take k h ++ ellipsis ++ drop (length h - k) h /\
   length out = (2 * k + 3)%nat) /\
  (length out <= length h + 2)%nat.
Proof.
  intros Hlen k out.
  assert (1 <= k)%nat as Hk1.
  { subst k. change 1%nat with (2 / 2)%nat. apply Nat.Div0.div_le_mono, Hlen. }
  assert (2 * k <= len)%nat as Hk2 by (subst k; apply Nat.Div0.mul_div_le).
  assert (len < 2 * k + 2)%nat as Hk3.
  { subst k. pose proof (Nat.div_mod_eq len 2).
    pose proof (Nat.mod_upper_bound len 2). lia. }
  destruct (Nat.ltb_spec len (length h)) as [Hlong|Hshort].
  - assert (out = take k h ++ ellipsis ++ drop (length h - k) h) as Hout.
    { subst out. unfold formatHash, slice_first, slice_last.
      destruct (Nat.ltb_spec len (length h)); [|lia].
      fold k. destruct k; [lia|reflexivity]. }
    assert (length out = (2 * k + 3)%nat) as Hlout.
    { rewrite Hout, !length_app, length_take, length_drop. simpl. lia. }
    split; [|split; [lia|split; [auto|lia]]].
    rewrite Hout. apply formatHash_cut; fold k.
    + rewrite length_take. lia.
    + rewrite length_drop. lia.
    + exact Hk1.
    + lia.
  - assert (out = h) as Hout.
    { subst out. unfold formatHash.
      destruct (Nat.ltb_spec len (length h)); [lia|reflexivity]. }
    split; [|split; [auto|split; [lia|rewrite Hout; lia]]].
    rewrite Hout. unfold formatHash.
    destruct (Nat.ltb_spec len (length h)); [lia|reflexivity].
Qed.

(** A transaction id at the default length of 16. *)
Lemma formatHash_stable_witness :
  (2 <= 16)%nat /\
  formatHash (Some sample_txid) 16
  = String.list_ascii_of_string "4a5e1e4b...fdeda33b" /\
  formatHash (Some (formatHash (Some sample_txid) 16)) 16
  = formatHash (Some sample_txid) 16.
Proof.
  split; [lia|]. split; [reflexivity|].
  destruct (formatHash_stable sample_txid 16 ltac:(lia)) as [Hid _].
  exact Hid.
Defined.

(** X13. [formatTimeAgo] prints a whole number of seconds, minutes,
    hours or days: the age in seconds for ages below a minute (a
    timestamp in the future gives a negative number of seconds), else
    the age in the largest unit that fits, rounded down, so that minutes
    run from 1 to 59, hours from 1 to 23, days from 1; the unit is never
    put in the singular. *)
Theorem formatTimeAgo_floor (now timestamp : Z) :
  let diff := now / 1000 - timestamp in
  exists n suffix secs,
    formatTimeAgo now timestamp = pretty n +:+ suffix /\
    n * secs <= diff < (n + 1) * secs /\
    ((suffix = " seconds ago" /\ secs = 1 /\ n < 60) \/
     (suffix = " minutes ago" /\ secs = 60 /\ 1 <= n < 60) \/
     (suffix = " hours ago" /\ secs = 3600 /\ 1 <= n < 24) \/
     (suffix = " days ago" /\ secs = 86400 /\ 1 <= n)).
Proof.
  intros diff. unfold formatTimeAgo. fold diff.
  destruct (Z.ltb_spec diff 60) as [H1|H1].
  { exists diff, " seconds ago", 1. split; [reflexivity|]. split; [lia|auto]. }
  destruct (Z.ltb_spec diff 3600) as [H2|H2].
  { exists (diff / 60), " minutes ago", 60. split; [reflexivity|].
    pose proof (Z.div_mod diff 60 ltac:(lia)).
    pose proof (Z.mod_pos_bound diff 60 ltac:(lia)).
    split; [lia|]. right. left. split; [reflexivity|]. split; lia. }
  destruct (Z.ltb_spec diff 86400) as [H3|H3].
  { exists (diff / 3600), " hours ago", 3600. split; [reflexivity|].
    pose proof (Z.div_mod diff 3600 ltac:(lia)).
    pose proof (Z.mod_pos_bound diff 3600 ltac:(lia)).
    split; [lia|]. right. right. left. split; [reflexivity|]. split; lia. }
  exists (diff / 86400), " days ago", 86400. split; [reflexivity|].
  pose proof (Z.div_mod diff 86400 ltac:(lia)).
  pose proof (Z.mod_pos_bound diff 86400 ltac:(lia)).
  split; [lia|]. right. right. right. split; [reflexivity|]. split; lia.
Qed.

(** Ninety seconds, one hour and a future timestamp. *)
Example formatTimeAgo_samples :
  formatTimeAgo 1000000 910 = "1 minutes ago" /\
  formatTimeAgo 3600000 0 = "1 hours ago" /\
  formatTimeAgo 1000000 1005 = "-5 seconds ago".
Proof. vm_compute. repeat split. Qed.

(** ** The cycle and the stores *)

(** One path of the cycle, run on two states that differ in their
    stores only. *)
Ltac storage_case :=
  do 5 (split; [reflexivity|]);
  let H := fresh in
  intros H; cbn; rewrite ?H; split; reflexivity.

(** X14. What a cycle publishes does not depend on the statistics store
    or on the immutable cache: with any other store (open or closed) and
    any other immutable cache the same call has the same outcome, asks
    for the same coinbase, and leaves the same live cache, the same
    [lastUpdateTime] and the same flag; and a database that is not open
    stays so, the charts reading nothing from it. *)
Theorem publication_ignores_storage
    (inp : CycleInput) (st : State)
    (imm : gmap string Tx.t) (store : option Store) :
  let st' := mkState (updateManagerRunning st) (lastUpdateTime st)
               (liveCache st) imm store in
  let res := updateManager inp st in
  let res' := updateManager inp st' in
  outcome res' = outcome res /\
  rewardRequest res' = rewardRequest res /\
  liveCache (final res') = liveCache (final res) /\
  lastUpdateTime (final res') = lastUpdateTime (final res) /\
  updateManagerRunning (final res') = updateManagerRunning (final res) /\
  (db st = None ->
   db (final res) = None /\
   forall days, getDailyStats days (db (final res)) = []).
Proof.
  intros st' res res'. subst st' res res'.
  destruct st as [flag last live imm0 db0].
  unfold updateManager, enter.
  cbn [updateManagerRunning lastUpdateTime liveCache immutableCache db].
  destruct flag; [storage_case|].
  unfold after_fanout. cbn [liveCache].
  destruct (f_blocks (c_fanout inp)) as [blocks|]; [|storage_case].
  destruct (f_tipHeight (c_fanout inp)) as [tip|]; [|storage_case].
  destruct (blocks !! 0%nat) as [b0|]; [|storage_case].
  destruct (truthyOpt _); [storage_case|].
  unfold after_reward.
  destruct (c_reward inp) as [txs|]; [destruct (coinbase_of txs)|];
    storage_case.
Qed.

Lemma insertMany_origin blocks tbl r :
  In r (insertMany blocks tbl) ->
  In r tbl \/ exists b, In b blocks /\ r = history_row b.
Proof.
  unfold insertMany. revert tbl.
  induction blocks as [|b bs IH]; simpl; intros tbl Hin; [auto|].
  apply IH in Hin as [Hin|(b' & Hb' & ->)]; [|right; eauto].
  unfold insert_or_ignore in Hin. destruct (has_height _ _); [auto|].
  apply in_app_or in Hin as [Hin|[<-|[]]]; [auto|right; eauto].
Qed.

Lemma unique_height_eq (tbl : list HistRow.t) (r r' : HistRow.t) :
  NoDup (map HistRow.height tbl) -> In r tbl -> In r' tbl ->
  HistRow.height r = HistRow.height r' -> r = r'.
Proof.
  intros Hnd Hr Hr' Hh.
  pose proof (unique_height_one tbl r Hnd Hr) as H1.
  assert (In r' (List.filter (fun x => HistRow.height x =? HistRow.height r) tbl))
    as Hin.
  { apply List.filter_In. split; [exact Hr'|]. apply Z.eqb_eq. auto. }
  rewrite H1 in Hin. destruct Hin as [<-|[]]. reflexivity.
Qed.

(** X15. A cycle that publishes with the database open records what it
    fetched: every fetched block has a history row of its height
    afterwards, every row is an old row or the row of a fetched block,
    the heights stay unique, and a height recorded before keeps its old
    row, whatever block the upstream now reports at that height. *)
Theorem fetched_blocks_recorded
    (inp : CycleInput) (st : State) (s : Store)
    (blocks : list Block.t) (tip : Z) :
  updateManagerRunning st = false ->
  f_blocks (c_fanout inp) = Ok blocks ->
  f_tipHeight (c_fanout inp) = Ok tip ->
  db st = Some s ->
  NoDup (map HistRow.height (blocks_history s)) ->
  exists s',
    db (final (updateManager inp st)) = Some s' /\
    NoDup (map HistRow.height (blocks_history s')) /\
    (forall b, In b blocks ->
       exists r, In r (blocks_history s') /\
                 HistRow.height r = Block.height b) /\
    (forall r, In r (blocks_history s') ->
       In r (blocks_history s) \/ exists b, In b blocks /\ r = history_row b) /\
    (forall r r', In r (blocks_history s) -> In r' (blocks_history s') ->
       HistRow.height r' = HistRow.height r -> r' = r).
Proof.
  intros Hidle Hb Ht Hdb Hnd.
  destruct (updateManager_fulfilled inp st blocks tip Hidle Hb Ht)
    as (now & r0 & st1 & req & Hres & _ & Hdb1 & _).
  rewrite Hres. cbn [final]. unfold publish. cbn [fst release db l_blocks derive].
  rewrite Hdb1, Hdb.
  assert (exists s', saveBlocksToStats now blocks (Some s) = Some s' /\
                     blocks_history s' = insertMany blocks (blocks_history s))
    as (s' & Hsave & Hhist).
  { unfold saveBlocksToStats. destruct blocks as [|b bs]; [eauto|].
    unfold updateDailyStats. destruct (0 <? _); eauto. }
  exists s'. split; [exact Hsave|]. rewrite Hhist.
  assert (NoDup (map HistRow.height (insertMany blocks (blocks_history s))))
    as Hnd' by (apply insertMany_unique, Hnd).
  split; [exact Hnd'|]. split; [|split].
  - intros b Hin. apply has_height_true, insertMany_has, Hin.
  - intros r. apply insertMany_origin.
  - intros r r' Hr Hr' Hh.
    apply (unique_height_eq _ r' r Hnd'); [exact Hr'| |exact Hh].
    apply insertMany_keeps, Hr.
Qed.

(** Block 100 is on file under another hash when the sample cycle
    fetches blocks 101 and 100. *)
Lemma fetched_blocks_recorded_witness :
  let old := HistRow.mk 100 "0fff" 1704067100 1 900 0 (IsoDate.mk 2024 1 1) in
  let st := mkState false 0 ∅ ∅ (Some (mkStore [old] [])) in
  (updateManagerRunning st = false /\
   NoDup (map HistRow.height [old])) /\
  exists s',
    db (final (updateManager (Sample.cycle_ok Sample.t0) st)) = Some s' /\
    blocks_history s' = [old; history_row Sample.newest].
Proof.
  intros old st.
  assert (NoDup (map HistRow.height [old])) as Hnd by apply NoDup_singleton.
  split; [split; [reflexivity|exact Hnd]|].
  destruct (fetched_blocks_recorded (Sample.cycle_ok Sample.t0) st
              (mkStore [old] []) Sample.blocks 101
              eq_refl eq_refl eq_refl eq_refl Hnd) as (s' & Hdb & _).
  exists s'. split; [exact Hdb|].
  vm_compute in Hdb. injection Hdb as <-. reflexivity.
Defined.

(** X16. A call of [updateManager] puts one thing only into the
    immutable cache: an entry found there afterwards was there before,
    or it is the coinbase transaction the cycle fetched, stored under
    ["tx:"] followed by its txid, and the reward the cycle publishes is
    the sum of the outputs of that transaction. *)
Theorem immutable_cache_frame
    (inp : CycleInput) (st : State) (k : string) (v : Tx.t) :
  let res := updateManager inp st in
  immutableCache (final res) !! k = Some v ->
  immutableCache st !! k = Some v \/
  (k = "tx:" +:+ Tx.txid v /\
   rewardRequest res <> None /\
   (exists txs, c_reward inp = Ok txs /\ coinbase_of txs = Some v) /\
   exists d, outcome res = Published d /\
             Dashboard.blockReward d = sum_vout (Tx.vout v)).
Proof.
  intros res. subst res.
  unfold updateManager, enter.
  destruct (updateManagerRunning st); [cbn; auto|].
  unfold after_fanout.
  destruct (f_blocks (c_fanout inp)) as [blocks|]; [|cbn; auto].
  destruct (f_tipHeight (c_fanout inp)) as [tip|]; [|cbn; auto].
  destruct (blocks !! 0%nat) as [b0|]; [|cbn; auto].
  destruct (truthyOpt _); [cbn; auto|].
  unfold after_reward.
  destruct (c_reward inp) as [txs|] eqn:Er; [|cbn; auto].
  destruct (coinbase_of txs) as [tx|] eqn:Ec; [|cbn; auto].
  cbn [final outcome rewardRequest publish fst snd release immutableCache
       setImmutable].
  intros Hv. apply lookup_insert_Some in Hv as [[<- <-]|[_ Hv]]; [right|auto].
  split; [reflexivity|]. split; [discriminate|]. split; [eauto|].
  eexists. split; reflexivity.
Qed.

(** The sample cycle stores the coinbase it fetched. *)
Lemma immutable_cache_frame_witness :
  immutableCache (final (updateManager (Sample.cycle_ok Sample.t0) initial))
    !! "tx:cb01" = Some Sample.coinbase /\
  exists d, outcome (updateManager (Sample.cycle_ok Sample.t0) initial)
            = Published d /\
            Dashboard.blockReward d = 5000000000.
Proof.
  assert (immutableCache
            (final (updateManager (Sample.cycle_ok Sample.t0) initial))
            !! "tx:cb01" = Some Sample.coinbase) as Hv by reflexivity.
  split; [exact Hv|].
  destruct (immutable_cache_frame (Sample.cycle_ok Sample.t0) initial
              "tx:cb01" _ Hv) as [Hold|(_ & _ & _ & d & Ho & Hr)].
  - vm_compute in Hold. discriminate.
  - exists d. split; [exact Ho|]. rewrite Hr. reflexivity.
Defined.

(** ** The transactions page *)

Section ImmutableCache.

Implicit Types (c : ImmutableLRU) (e : ImmEntry) (key k : string).

Lemma imm_find_Some key c e :
  imm_find key c = Some e -> In e c /\ imm_key e = key.
Proof.
  unfold imm_find. intros H. apply List.find_some in H as [Hin Hk].
  apply String.eqb_eq in Hk. auto.
Qed.

Lemma imm_delete_In key c e : In e (imm_delete key c) -> In e c.
Proof. unfold imm_delete. rewrite List.filter_In. tauto. Qed.

Lemma imm_find_delete key k c :
  k <> key -> imm_find k (imm_delete key c) = imm_find k c.
Proof.
  intros Hne. induction c as [|x c IH]; [reflexivity|].
  unfold imm_find, imm_delete in *. cbn [List.filter List.find].
  destruct (String.eqb_spec (imm_key x) key) as [Hx|Hx]; cbn [negb].
  - destruct (String.eqb_spec (imm_key x) k) as [Hk|_]; [congruence|].
    exact IH.
  - cbn [List.find]. destruct (String.eqb (imm_key x) k); [reflexivity|].
    exact IH.
Qed.

(** Reading an entry changes the order of use only. *)
Lemma imm_find_touch key k c e :
  imm_find key c = Some e ->
  imm_find k (e :: imm_delete key c) = imm_find k c.
Proof.
  intros Hfind. destruct (imm_find_Some _ _ _ Hfind) as [_ Hkey].
  unfold imm_find at 1. cbn [List.find].
  destruct (String.eqb_spec (imm_key e) k) as [Hk|Hk].
  - rewrite <- Hk, Hkey. symmetry. exact Hfind.
  - apply imm_find_delete. congruence.
Qed.

Lemma LRUCache_get_In now key c e :
  In e (LRUCache_get now key c).2 -> In e c.
Proof.
  unfold LRUCache_get. destruct (imm_find key c) as [x|] eqn:Hfind;
    [|auto].
  destruct (imm_find_Some _ _ _ Hfind) as [Hin _].
  destruct (_ >? _); cbn [snd].
  - apply imm_delete_In.
  - intros [<-|H]; [exact Hin|]. exact (imm_delete_In _ _ _ H).
Qed.

Lemma LRUCache_get_Some now key c v :
  (LRUCache_get now key c).1 = Some v ->
  exists e, In e c /\ imm_key e = key /\ imm_value e = v.
Proof.
  unfold LRUCache_get. destruct (imm_find key c) as [x|] eqn:Hfind;
    [|discriminate].
  destruct (imm_find_Some _ _ _ Hfind) as [Hin Hkey].
  destruct (_ >? _); cbn [fst]; [discriminate|].
  intros [= <-]. exists x. auto.
Qed.

Lemma LRUCache_get_hit now key c e :
  imm_find key c = Some e -> now - imm_start e <= IMMUTABLE_TTL ->
  LRUCache_get now key c = (Some (imm_value e), e :: imm_delete key c).
Proof.
  intros Hfind Hage. unfold LRUCache_get. rewrite Hfind.
  destruct (Z.gtb_spec (now - imm_start e) IMMUTABLE_TTL); [lia|reflexivity].
Qed.

Lemma LRUCache_set_In now key v c e :
  In e (LRUCache_set now key v c) -> e = mkImmEntry key v now \/ In e c.
Proof.
  unfold LRUCache_set. intros H.
  apply list_elem_of_In, elem_of_take in H as (i & H & _).
  apply list_elem_of_lookup_2, list_elem_of_In in H.
  destruct H as [<-|H]; [auto|]. right. exact (imm_delete_In _ _ _ H).
Qed.

Lemma LRUCache_set_find now key v c :
  imm_find key (LRUCache_set now key v c) = Some (mkImmEntry key v now).
Proof.
  unfold LRUCache_set.
  replace IMMUTABLE_MAX with (S 999) by reflexivity.
  cbn [take]. unfold imm_find. cbn [List.find imm_key].
  rewrite String.eqb_refl. reflexivity.
Qed.

Lemma server_fetchFromElectrs_hit electrs endpoint now c e :
  imm_find endpoint c = Some e -> now - imm_start e <= IMMUTABLE_TTL ->
  server_fetchFromElectrs electrs endpoint now c
  = mkFetched (Ok (imm_value e)) now (e :: imm_delete endpoint c) [].
Proof.
  intros Hfind Hage. unfold server_fetchFromElectrs.
  rewrite (LRUCache_get_hit _ _ _ _ Hfind Hage). reflexivity.
Qed.

Context (electrs : string -> Z -> Response).

(** An answer stored by the wrapper is served again, without a request,
    for as long as it has not expired, whatever Electrs would answer
    then. *)
Lemma server_fetchFromElectrs_again endpoint now c data now' electrs' :
  immutable_endpoint endpoint = true ->
  (LRUCache_get now endpoint c).1 = None ->
  answer (electrs endpoint now) = Ok data ->
  now' - settledAt (electrs endpoint now) <= IMMUTABLE_TTL ->
  let f := server_fetchFromElectrs electrs endpoint now c in
  let f' := server_fetchFromElectrs electrs' endpoint now' (f_cache f) in
  f_asked f = [endpoint] /\ f_data f' = Ok data /\ f_asked f' = [] /\
  f_now f' = now'.
Proof.
  intros Himm Hmiss Hans Hage.
  assert (server_fetchFromElectrs electrs endpoint now c
          = mkFetched (Ok data) (settledAt (electrs endpoint now))
              (LRUCache_set (settledAt (electrs endpoint now)) endpoint data
                 (LRUCache_get now endpoint c).2)
              [endpoint]) as Hf.
  { unfold server_fetchFromElectrs.
    destruct (LRUCache_get now endpoint c) as [[v|] c1]; [discriminate|].
    rewrite Hans, Himm. reflexivity. }
  cbn zeta. rewrite Hf. cbn [f_cache f_asked].
  rewrite (server_fetchFromElectrs_hit electrs' endpoint now' _ _
             (LRUCache_set_find _ _ _ _) Hage).
  repeat split; reflexivity.
Qed.

Context (c0 : ImmutableLRU).

Lemma kept_mono asked more e :
  kept electrs c0 asked e -> kept electrs c0 (asked ++ more) e.
Proof.
  intros [H|(H & ? & ?)]; [left; exact H|].
  right. split; [apply in_or_app; auto|auto].
Qed.

Lemma answered_mono asked more endpoint v :
  answered electrs c0 asked endpoint v ->
  answered electrs c0 (asked ++ more) endpoint v.
Proof.
  intros [H|(H & ?)]; [left; exact H|].
  right. split; [apply in_or_app; auto|auto].
Qed.

Lemma server_fetchFromElectrs_spec endpoint now c asked :
  (forall e, In e c -> kept electrs c0 asked e) ->
  let f := server_fetchFromElectrs electrs endpoint now c in
  (f_asked f = [] \/ f_asked f = [endpoint]) /\
  (forall e, In e (f_cache f) -> kept electrs c0 (asked ++ f_asked f) e) /\
  (forall v, f_data f = Ok v ->
             answered electrs c0 (asked ++ f_asked f) endpoint v).
Proof.
  intros Hkept. cbn zeta. unfold server_fetchFromElectrs.
  pose proof (LRUCache_get_In now endpoint c) as Hin.
  pose proof (LRUCache_get_Some now endpoint c) as Hsome.
  destruct (LRUCache_get now endpoint c) as [[cached|] c1];
    cbn [fst snd] in Hin, Hsome.
  - cbn [f_asked f_cache f_data]. split; [auto|]. split.
    + intros e He. apply kept_mono, Hkept, Hin, He.
    + intros v [= <-]. destruct (Hsome _ eq_refl) as (e & He & Hk & Hv).
      destruct (Hkept e He) as [H0|(Hasked & _ & t & Ht)].
      * left. exists e. auto.
      * right. rewrite Hk, Hv in *.
        split; [apply in_or_app; auto|exists t; exact Ht].
  - destruct (answer (electrs endpoint now)) as [data|msg] eqn:Hans;
      cbn [f_asked f_cache f_data].
    + split; [auto|]. split.
      * intros e He.
        destruct (immutable_endpoint endpoint) eqn:Himm;
          [apply LRUCache_set_In in He as [->|He]|].
        -- right. cbn [imm_key imm_value].
           split; [apply in_or_app; right; left; reflexivity|].
           split; [exact Himm|]. exists now. exact Hans.
        -- apply kept_mono, Hkept, Hin, He.
        -- apply kept_mono, Hkept, Hin, He.
      * intros v [= <-]. right.
        split; [apply in_or_app; right; left; reflexivity|].
        exists now. exact Hans.
    + split; [auto|]. split; [|discriminate].
      intros e He. apply kept_mono, Hkept, Hin, He.
Qed.

End ImmutableCache.

Section TransactionsPage.

Context (electrs : string -> Z -> Response) (c0 : ImmutableLRU).

Lemma collectRecent_spec blocks : forall now c acc asked,
  (forall e, In e c -> kept electrs c0 asked e) ->
  let w := collectRecent electrs blocks now c acc asked in
  exists seen rest more,
    blocks = seen ++ rest /\
    w_asked w = asked ++ more /\
    sublist more (map block_txs_endpoint seen) /\
    (forall e, In e (w_cache w) -> kept electrs c0 (w_asked w) e) /\
    (forall r, In r (w_recentTxs w) ->
               In r acc \/ shown_from electrs c0 (w_asked w) seen r) /\
    (rest <> [] -> (25 <= length (w_recentTxs w))%nat).
Proof.
  induction blocks as [|block bs IH]; intros now c acc asked Hkept; cbn zeta.
  - exists [], [], []. cbn [collectRecent w_asked w_cache w_recentTxs map].
    split; [reflexivity|]. split; [symmetry; apply app_nil_r|].
    split; [constructor|]. split; [exact Hkept|].
    split; [auto|]. intros H. contradiction.
  - cbn [collectRecent].
    destruct (server_fetchFromElectrs_spec electrs c0
                (block_txs_endpoint block) now c asked Hkept)
      as (Hasked & Hcache & Hdata).
    set (f := server_fetchFromElectrs electrs (block_txs_endpoint block)
                now c) in *.
    assert (forall acc',
              (forall r, In r acc' ->
                 In r acc \/
                 shown_from electrs c0 (asked ++ f_asked f) [block] r) ->
              let w := collectRecent electrs bs (f_now f) (f_cache f) acc'
                         (asked ++ f_asked f) in
              exists seen rest more,
                block :: bs = seen ++ rest /\
                w_asked w = asked ++ more /\
                sublist more (map block_txs_endpoint seen) /\
                (forall e, In e (w_cache w) ->
                           kept electrs c0 (w_asked w) e) /\
                (forall r, In r (w_recentTxs w) ->
                   In r acc \/ shown_from electrs c0 (w_asked w) seen r) /\
                (rest <> [] -> (25 <= length (w_recentTxs w))%nat))
      as Hrec.
    { intros acc' Hacc'. cbn zeta.
      destruct (IH (f_now f) (f_cache f) acc' (asked ++ f_asked f) Hcache)
        as (seen & rest & more & -> & Hw & Hsub & Hk & Hshown & Hstop).
      exists (block :: seen), rest, (f_asked f ++ more).
      split; [reflexivity|]. split; [rewrite Hw, app_assoc; reflexivity|].
      split.
      { cbn [map]. destruct Hasked as [->| ->]; cbn [app];
          [apply sublist_cons|apply sublist_skip]; exact Hsub. }
      split; [exact Hk|]. split; [|exact Hstop].
      intros r Hr. destruct (Hshown r Hr) as [Hr'|Hr'].
      - destruct (Hacc' r Hr') as [?|(b & txs & Hb & Htx & Hh & Ht & Hans)];
          [auto|].
        right. exists b, txs.
        split; [destruct Hb as [<-|[]]; left; reflexivity|].
        repeat (split; [assumption|]). rewrite Hw. apply answered_mono, Hans.
      - right. destruct Hr' as (b & txs & Hb & Htx & Hh & Ht & Hans).
        exists b, txs. split; [right; exact Hb|].
        repeat (split; [assumption|]). exact Hans. }
    destruct (f_data f) as [[tx|blk|txs]|msg] eqn:Hf;
      try (apply Hrec; intros r Hr; left; exact Hr).
    set (acc' := acc ++ map _ txs).
    assert (forall r, In r acc' ->
              In r acc \/
              shown_from electrs c0 (asked ++ f_asked f) [block] r) as Hacc'.
    { intros r Hr. subst acc'. apply in_app_or in Hr as [Hr|Hr]; [auto|].
      apply in_map_iff in Hr as (tx & <- & Htx). right.
      exists block, txs. split; [left; reflexivity|].
      split; [exact Htx|]. split; [reflexivity|]. split; [reflexivity|].
      apply Hdata. reflexivity. }
    destruct (Nat.leb_spec 25 (length acc')) as [Hfull|Hmore];
      [|apply Hrec, Hacc'].
    exists [block], bs, (f_asked f).
    cbn [w_asked w_cache w_recentTxs]. split; [reflexivity|].
    split; [reflexivity|]. split.
    { cbn [map]. destruct Hasked as [->| ->];
        [apply sublist_cons|apply sublist_skip]; constructor. }
    split; [exact Hcache|]. split; [exact Hacc'|]. intros _. exact Hfull.
Qed.

End TransactionsPage.

(** When the pages of all the blocks are in the cache and have not
    expired, the loop sends no request and does not depend on
    Electrs. *)
Lemma collectRecent_cached electrs electrs' blocks :
  forall now c acc asked,
    (forall block, In block blocks ->
                   cached now (block_txs_endpoint block) c) ->
    w_asked (collectRecent electrs blocks now c acc asked) = asked /\
    collectRecent electrs' blocks now c acc asked
    = collectRecent electrs blocks now c acc asked.
Proof.
  induction blocks as [|block bs IH]; intros now c acc asked Hall;
    cbn [collectRecent]; [split; reflexivity|].
  destruct (Hall block (or_introl eq_refl)) as (e & Hfind & Hage).
  rewrite !(server_fetchFromElectrs_hit _ _ _ _ _ Hfind Hage).
  cbn [f_data f_asked f_now f_cache]. rewrite app_nil_r.
  assert (forall b, In b bs ->
            cached now (block_txs_endpoint b)
              (e :: imm_delete (block_txs_endpoint block) c)) as Hall'.
  { intros b Hb. destruct (Hall b (or_intror Hb)) as (x & Hx & Hxage).
    exists x. split; [|exact Hxage].
    rewrite (imm_find_touch _ _ _ _ Hfind). exact Hx. }
  destruct (imm_value e) as [tx|blk|txs]; try (apply IH, Hall').
  destruct (25 <=? _)%nat; [split; reflexivity|apply IH, Hall'].
Qed.

(** The two endpoints the page asks first are not among those the
    wrapper stores; the page of a block named by its hash is. *)
Example immutable_endpoint_samples :
  immutable_endpoint "/mempool/recent" = false /\
  immutable_endpoint "/blocks" = false /\
  immutable_endpoint "/blocks/tip/height" = false /\
  immutable_endpoint (block_txs_endpoint (hashed_block "b" 101)) = true /\
  immutable_endpoint (block_txs_endpoint Sample.newest) = false.
Proof. vm_compute. repeat split; reflexivity. Qed.


